(** * Team-scoped task, project and lead API: a shallow embedding

    The repository ships the same Express API three times: a server that
    keeps users, tasks, projects and leads in process-wide arrays, a server
    backed by a Prisma client, and a stub that answers with fixed data.
    This development embeds the handlers of the first two as pure functions
    over the state they touch and settles the properties the specification
    states about them.

    Conventions of the embedding.
    - A module-level array ([let tasks: Task[] = []]) is a [list]; a handler
      takes the array and returns the response together with the array it
      leaves behind. [push] appends at the end, [findIndex] is stdpp's
      [list_find], [arr[i] = x] is [<[i:=x]>] and [splice(i, 1)] is
      [delete i].
    - A request body is a record of optional fields: [None] is a key the
      client did not send. Values are typed as the TypeScript interfaces
      type them (strings and integers); [email] and [password] of the
      auth routes, which the handlers feed to library calls that throw on
      another type, may hold any JSON value.
    - A handler that awaits between reading an array and writing it is
      two steps, the part up to the [await] and the part after it, so
      that other requests can come between them; a [catch] branch is the
      response it sends.
    - [||] and [!] follow JavaScript truthiness: an absent value, the empty
      string and the number zero are falsy.
    - The clock is an argument: [now k] is the instant (milliseconds since
      the epoch) that the k-th [Date] expression of the handler, in source
      order, reads. *)

From stdpp Require Import base option list sorting strings pretty.
From stdpp Require gmap.
From Stdlib Require Import Ascii ZArith Lia.

Local Open Scope Z_scope.
Local Open Scope string_scope.
Local Open Scope list_scope.

(** ** JavaScript primitives *)

Module JS.

(** [!!v] for a value typed [string | undefined]. *)
Definition truthy (v : option string) : bool :=
  match v with
  | Some (String _ _) => true
  | _ => false
  end.

(** [v || d] on strings. *)
Definition or_else (v : option string) (d : string) : string :=
  match v with
  | Some (String c s) => String c s
  | _ => d
  end.

(** [v || d] on numbers. *)
Definition num_or (v : option Z) (d : Z) : Z :=
  match v with
  | Some n => if decide (n = 0) then d else n
  | None => d
  end.

(** A JSON value in a place where the code expects a string: a string,
    or a value of another type (a number, a boolean, [null], an array, an
    object), of which the handlers see the truthiness before a library
    call throws on it. *)
Inductive Value :=
| Str (s : string)
| Other (truthy : bool).

(** [!!v] for a JSON value or [undefined]. *)
Definition truthy_value (v : option Value) : bool :=
  match v with
  | Some (Str (String _ _)) => true
  | Some (Other b) => b
  | _ => false
  end.

(** Lowering of the letters A to Z, every other character left as it
    is: what [toLowerCase] does on ASCII strings. *)
Definition lower_ascii (c : ascii) : ascii :=
  let n := nat_of_ascii c in
  if bool_decide (65 ≤ n ≤ 90)%nat then ascii_of_nat (n + 32) else c.

Fixpoint lower_letters (s : string) : string :=
  match s with
  | EmptyString => EmptyString
  | String c s' => String (lower_ascii c) (lower_letters s')
  end.

(** [s.split('@')[0]]: the part of [s] before its first ['@'], all of
    [s] when there is none. *)
Fixpoint before_at (s : string) : string :=
  match s with
  | EmptyString => EmptyString
  | String c s' => if decide (c = "@"%char) then EmptyString
                   else String c (before_at s')
  end.

(** A date string held by a record: [new Date().toISOString()] taken at
    an instant, or a string that came from a request body. *)
Inductive DateString :=
| ISO (ms : Z)
| Raw (s : string).

(** [v || new Date().toISOString()]. *)
Definition date_or (v : option string) (ms : Z) : DateString :=
  match v with
  | Some (String c s) => Raw (String c s)
  | _ => ISO ms
  end.

(** A JSON object with string values, as [res.json] sends it: a key
    whose value is [undefined] is left out. *)
Definition JObject := list (string * string).

Definition field (k : string) (v : option string) : JObject :=
  match v with
  | Some s => [(k, s)]
  | None => []
  end.

Definition keys (o : JObject) : list string := o.*1.

End JS.

Import JS.

(** The instants read by the [Date] expressions of one handler run. *)
Definition Clock := nat → Z.

(** ** The string library of the engine *)

(** [String.prototype.toLowerCase] follows the Unicode case mappings; it
    is taken as it comes, and nothing is assumed of it. *)
Class Strings := {
  toLowerCase : string → string
}.

(** ** The opaque collaborators: bcryptjs and jsonwebtoken *)

Class Crypto := {
  (** [bcrypt.hash(password, 12)]; the salt is drawn by the library. *)
  bcrypt_hash : string → string → string;
  (** [bcrypt.compare(password, hash)]. *)
  bcrypt_compare : string → string → bool;
  (** [jwt.sign(claims, secret, { expiresIn: '30d' })] at an instant. *)
  jwt_sign : JObject → Z → string
}.

(** ** Data model *)

(** [req.user], the claims the middleware decoded from the token. *)
Module Identity.
Record t := mk {
  id : string;
  email : string;
  name : string;
  role : string;
  teamName : option string
}.
End Identity.

Module User.
Record t := mk {
  id : string;
  email : string;
  password : string;
  name : string;
  teamName : option string;
  role : string;
  createdAt : DateString
}.
End User.

Module Task.
Record t := mk {
  id : string;
  title : option string;
  description : string;
  status : string;
  priority : string;
  assignee : string;
  dueDate : DateString;
  teamName : string;
  createdBy : string;
  createdAt : DateString;
  updatedAt : DateString
}.
End Task.

Module Project.
Record t := mk {
  id : string;
  name : option string;
  description : string;
  client : string;
  status : string;
  priority : string;
  progress : Z;
  teamName : string;
  createdBy : string;
  createdAt : DateString;
  updatedAt : DateString
}.
End Project.

Module Lead.
Record t := mk {
  id : string;
  company : option string;
  contact : option string;
  contactEmail : string;
  status : string;
  value : Z;
  probability : Z;
  teamName : string;
  createdBy : string;
  createdAt : DateString;
  updatedAt : DateString
}.
End Lead.

(** ** Request bodies *)

Module RegisterBody.
Record t := mk {
  email : option Value;
  password : option Value;
  name : option string;
  teamName : option string
}.
End RegisterBody.

Module LoginBody.
Record t := mk {
  email : option Value;
  password : option Value
}.
End LoginBody.

(** [req.body] of the task routes: any key of a task may be present. *)
Module TaskBody.
Record t := mk {
  id : option string;
  title : option string;
  description : option string;
  status : option string;
  priority : option string;
  assignee : option string;
  dueDate : option string;
  teamName : option string;
  createdBy : option string;
  createdAt : option string
}.
Definition empty : t := mk None None None None None None None None None None.
End TaskBody.

Module ProjectBody.
Record t := mk {
  name : option string;
  description : option string;
  client : option string;
  status : option string;
  priority : option string;
  progress : option Z;
  teamName : option string;
  createdBy : option string
}.
Definition empty : t := mk None None None None None None None None.
End ProjectBody.

Module LeadBody.
Record t := mk {
  company : option string;
  contact : option string;
  contactEmail : option string;
  status : option string;
  value : option Z;
  probability : option Z;
  teamName : option string;
  createdBy : option string
}.
Definition empty : t := mk None None None None None None None None.
End LeadBody.

(** ** Responses *)

(** What a resource route sends: [{ error }], [{ message }], one record,
    an array of records, or nothing at all ([send()]). *)
Inductive Payload (R : Type) :=
| Err (error : string)
| Msg (message : string)
| One (r : R)
| Many (rs : list R)
| Empty.
Arguments Err {R} error.
Arguments Msg {R} message.
Arguments One {R} r.
Arguments Many {R} rs.
Arguments Empty {R}.

Record Response (R : Type) := mkResponse {
  status : Z;
  payload : Payload R
}.
Arguments mkResponse {R} status payload.
Arguments status {R} r.
Arguments payload {R} r.

(** What the auth routes send: [{ error }] or [{ message, user, token }]. *)
Inductive AuthPayload :=
| AuthErr (error : string)
| AuthOk (message : string) (user : JObject) (token : string).

Record AuthResponse := mkAuthResponse {
  auth_status : Z;
  auth_payload : AuthPayload
}.

(** ** The in-memory server *)

Module Memory.

(** The object both auth routes put under [user] and sign into the token. *)
Definition claims (user : User.t) : JObject :=
  [("id", User.id user); ("email", User.email user);
   ("name", User.name user); ("role", User.role user)]
  ++ field "teamName" (User.teamName user).

(** The two messages of the [catch] branches. *)
Definition register_failed : string := "登録処理中にエラーが発生しました".
Definition login_failed : string := "ログイン処理中にエラーが発生しました".

Section Auth.
Context `{Strings} `{Crypto}.

(** [users.find(user => user.email === email.toLowerCase())] for an
    email that is a string. *)
Definition find_user (email : string) (users : list User.t) : option User.t :=
  snd <$> list_find (λ user, User.email user = toLowerCase email) users.

(** The same for any value: on a value that is no string the callback
    throws, [email.toLowerCase] being no function, as soon as there is a
    user to call it on. [None] is the throw. *)
Definition find_by_email (email : Value) (users : list User.t)
    : option (option User.t) :=
  match email with
  | Str e => Some (find_user e users)
  | Other _ =>
      match users with
      | [] => Some None
      | _ :: _ => None
      end
  end.

(** [POST /api/auth/register] up to [await bcrypt.hash(password, 12)]:
    the response, when the handler answers before it gets there, and
    [None] when it reaches the [await]. *)
Definition register_begin (body : RegisterBody.t) (users : list User.t)
    : option AuthResponse :=
  match RegisterBody.email body with
  | Some email =>
      if truthy_value (Some email) && truthy_value (RegisterBody.password body)
      then
        match find_by_email email users with
        | None => Some (mkAuthResponse 500 (AuthErr register_failed))
        | Some (Some existingUser) =>
            Some (mkAuthResponse 400
                    (AuthErr "このメールアドレスは既に登録されています"))
        | Some None => None
        end
      else
        Some (mkAuthResponse 400
                (AuthErr "メールアドレスとパスワードは必須です"))
  | None =>
      Some (mkAuthResponse 400
              (AuthErr "メールアドレスとパスワードは必須です"))
  end.

(** The object literal of [POST /api/auth/register]. [now 0] feeds
    [Date.now()] and [now 1] the [createdAt] stamp. *)
Definition new_user (now : Clock) (salt : string) (body : RegisterBody.t)
    (email password : string) : User.t :=
  {| User.id := pretty (now 0%nat);
     User.email := toLowerCase email;
     User.password := bcrypt_hash salt password;
     User.name := or_else (RegisterBody.name body) (before_at email);
     User.teamName :=
       Some (or_else (RegisterBody.teamName body) "デフォルトチーム");
     User.role := "user";
     User.createdAt := ISO (now 1%nat) |}.

(** The same handler from the [await] on, on the array as it is by then.
    [bcrypt.hash] rejects a password that is no string and
    [email.toLowerCase()] throws on an email that is none; both land in
    the [catch]. [now 2] is the instant of signing. *)
Definition register_end (now : Clock) (salt : string) (body : RegisterBody.t)
    (users : list User.t) : AuthResponse * list User.t :=
  match RegisterBody.password body, RegisterBody.email body with
  | Some (Str password), Some (Str email) =>
      let user := new_user now salt body email password in
      (mkAuthResponse 201
         (AuthOk "登録が完了しました" (claims user)
            (jwt_sign (claims user) (now 2%nat))),
       users ++ [user])
  | _, _ => (mkAuthResponse 500 (AuthErr register_failed), users)
  end.

(** [POST /api/auth/register] with no other request between its lookup
    and its push. *)
Definition register (now : Clock) (salt : string) (body : RegisterBody.t)
    (users : list User.t) : AuthResponse * list User.t :=
  match register_begin body users with
  | Some response => (response, users)
  | None => register_end now salt body users
  end.

(** [POST /api/auth/login]; it leaves [users] as it is. [bcrypt.compare]
    rejects a password that is no string, which lands in the [catch].
    [now 0] is the instant of signing. *)
Definition login (now : Clock) (body : LoginBody.t) (users : list User.t)
    : AuthResponse :=
  match LoginBody.email body with
  | Some email =>
      if truthy_value (Some email) && truthy_value (LoginBody.password body)
      then
        match find_by_email email users with
        | None => mkAuthResponse 500 (AuthErr login_failed)
        | Some None =>
            mkAuthResponse 401
              (AuthErr "メールアドレスまたはパスワードが正しくありません")
        | Some (Some user) =>
            match LoginBody.password body with
            | Some (Str password) =>
                if bcrypt_compare password (User.password user) then
                  mkAuthResponse 200
                    (AuthOk "ログインに成功しました" (claims user)
                       (jwt_sign (claims user) (now 0%nat)))
                else
                  mkAuthResponse 401
                    (AuthErr "メールアドレスまたはパスワードが正しくありません")
            | _ => mkAuthResponse 500 (AuthErr login_failed)
            end
        end
      else mkAuthResponse 400 (AuthErr "メールアドレスとパスワードは必須です")
  | None => mkAuthResponse 400 (AuthErr "メールアドレスとパスワードは必須です")
  end.

End Auth.

(** *** Tasks *)

(** [GET /api/tasks] *)
Definition get_tasks (user : Identity.t) (tasks : list Task.t)
    : Response Task.t :=
  mkResponse 200
    (Many (filter (λ task, Some (Task.teamName task) = Identity.teamName user)
             tasks)).

(** The object literal of [POST /api/tasks]. *)
Definition new_task (now : Clock) (user : Identity.t) (body : TaskBody.t)
    : Task.t :=
  {| Task.id := pretty (now 0%nat);
     Task.title := TaskBody.title body;
     Task.description := or_else (TaskBody.description body) "";
     Task.status := or_else (TaskBody.status body) "pending";
     Task.priority := or_else (TaskBody.priority body) "medium";
     Task.assignee :=
       or_else (TaskBody.assignee body)
         (or_else (Some (Identity.name user)) "Unknown");
     Task.dueDate := date_or (TaskBody.dueDate body) (now 1%nat);
     Task.teamName := or_else (Identity.teamName user) "Unknown";
     Task.createdBy := or_else (Some (Identity.name user)) "Unknown";
     Task.createdAt := ISO (now 2%nat);
     Task.updatedAt := ISO (now 3%nat) |}.

(** [POST /api/tasks] *)
Definition post_task (now : Clock) (user : Identity.t) (body : TaskBody.t)
    (tasks : list Task.t) : Response Task.t * list Task.t :=
  let task := new_task now user body in
  (mkResponse 201 (One task), tasks ++ [task]).

(** [{ ...task, ...req.body, updatedAt: new Date().toISOString() }] *)
Definition merge_task (now : Clock) (task : Task.t) (body : TaskBody.t)
    : Task.t :=
  {| Task.id := default (Task.id task) (TaskBody.id body);
     Task.title :=
       match TaskBody.title body with
       | Some s => Some s
       | None => Task.title task
       end;
     Task.description :=
       default (Task.description task) (TaskBody.description body);
     Task.status := default (Task.status task) (TaskBody.status body);
     Task.priority := default (Task.priority task) (TaskBody.priority body);
     Task.assignee := default (Task.assignee task) (TaskBody.assignee body);
     Task.dueDate := from_option Raw (Task.dueDate task) (TaskBody.dueDate body);
     Task.teamName := default (Task.teamName task) (TaskBody.teamName body);
     Task.createdBy := default (Task.createdBy task) (TaskBody.createdBy body);
     Task.createdAt :=
       from_option Raw (Task.createdAt task) (TaskBody.createdAt body);
     Task.updatedAt := ISO (now 0%nat) |}.

(** [tasks.findIndex(task => task.id === req.params.id &&
    task.teamName === req.user?.teamName)] *)
Definition find_task (user : Identity.t) (id : string) (tasks : list Task.t)
    : option (nat * Task.t) :=
  list_find (λ task, Task.id task = id
                     ∧ Some (Task.teamName task) = Identity.teamName user)
    tasks.

(** [PUT /api/tasks/:id] *)
Definition put_task (now : Clock) (user : Identity.t) (id : string)
    (body : TaskBody.t) (tasks : list Task.t)
    : Response Task.t * list Task.t :=
  match find_task user id tasks with
  | None => (mkResponse 404 (Err "タスクが見つかりません"), tasks)
  | Some (taskIndex, task) =>
      let task' := merge_task now task body in
      (mkResponse 200 (One task'), <[taskIndex := task']> tasks)
  end.

(** [DELETE /api/tasks/:id] *)
Definition delete_task (user : Identity.t) (id : string)
    (tasks : list Task.t) : Response Task.t * list Task.t :=
  match find_task user id tasks with
  | None => (mkResponse 404 (Err "タスクが見つかりません"), tasks)
  | Some (taskIndex, _) =>
      (mkResponse 200 (Msg "タスクが削除されました"), delete taskIndex tasks)
  end.

(** *** Projects *)

(** [GET /api/projects] *)
Definition get_projects (user : Identity.t) (projects : list Project.t)
    : Response Project.t :=
  mkResponse 200
    (Many (filter (λ project,
                     Some (Project.teamName project) = Identity.teamName user)
             projects)).

Definition new_project (now : Clock) (user : Identity.t)
    (body : ProjectBody.t) : Project.t :=
  {| Project.id := pretty (now 0%nat);
     Project.name := ProjectBody.name body;
     Project.description := or_else (ProjectBody.description body) "";
     Project.client := or_else (ProjectBody.client body) "";
     Project.status := or_else (ProjectBody.status body) "planning";
     Project.priority := or_else (ProjectBody.priority body) "medium";
     Project.progress := num_or (ProjectBody.progress body) 0;
     Project.teamName := or_else (Identity.teamName user) "Unknown";
     Project.createdBy := or_else (Some (Identity.name user)) "Unknown";
     Project.createdAt := ISO (now 1%nat);
     Project.updatedAt := ISO (now 2%nat) |}.

(** [POST /api/projects] *)
Definition post_project (now : Clock) (user : Identity.t)
    (body : ProjectBody.t) (projects : list Project.t)
    : Response Project.t * list Project.t :=
  let project := new_project now user body in
  (mkResponse 201 (One project), projects ++ [project]).

(** *** Leads *)

(** [GET /api/leads] *)
Definition get_leads (user : Identity.t) (leads : list Lead.t)
    : Response Lead.t :=
  mkResponse 200
    (Many (filter (λ lead, Some (Lead.teamName lead) = Identity.teamName user)
             leads)).

Definition new_lead (now : Clock) (user : Identity.t) (body : LeadBody.t)
    : Lead.t :=
  {| Lead.id := pretty (now 0%nat);
     Lead.company := LeadBody.company body;
     Lead.contact := LeadBody.contact body;
     Lead.contactEmail := or_else (LeadBody.contactEmail body) "";
     Lead.status := or_else (LeadBody.status body) "リード";
     Lead.value := num_or (LeadBody.value body) 0;
     Lead.probability := num_or (LeadBody.probability body) 50;
     Lead.teamName := or_else (Identity.teamName user) "Unknown";
     Lead.createdBy := or_else (Some (Identity.name user)) "Unknown";
     Lead.createdAt := ISO (now 1%nat);
     Lead.updatedAt := ISO (now 2%nat) |}.

(** [POST /api/leads] *)
Definition post_lead (now : Clock) (user : Identity.t) (body : LeadBody.t)
    (leads : list Lead.t) : Response Lead.t * list Lead.t :=
  let lead := new_lead now user body in
  (mkResponse 201 (One lead), leads ++ [lead]).

End Memory.

(** ** The Prisma-backed server

    The persistence engine is outside the repository. A table is a list of
    rows; of the client only what the update and delete routes rely on is
    modelled: [update] and [delete] address one row by its id and reject
    when no row has it. *)

Module Prisma.

Section Table.
Context {Row Data : Type} (row_id : Row → string) (write : Data → Row → Row).

(** [prisma.<model>.update({ where: { id }, data })] *)
Definition update (id : string) (data : Data) (rows : list Row)
    : option (Row * list Row) :=
  match list_find (λ row, row_id row = id) rows with
  | Some (i, row) => Some (write data row, <[i := write data row]> rows)
  | None => None
  end.

(** [prisma.<model>.delete({ where: { id } })] *)
Definition delete (id : string) (rows : list Row) : option (list Row) :=
  match list_find (λ row, row_id row = id) rows with
  | Some (i, _) => Some (base.delete i rows)
  | None => None
  end.

(** [PUT /api/<model>s/:id]; a rejected call lands in the [catch]. *)
Definition put (failure : string) (user : Identity.t) (id : string)
    (body : Data) (rows : list Row) : Response Row * list Row :=
  match update id body rows with
  | Some (row, rows') => (mkResponse 200 (One row), rows')
  | None => (mkResponse 500 (Err failure), rows)
  end.

(** [DELETE /api/<model>s/:id] *)
Definition del (failure : string) (user : Identity.t) (id : string)
    (rows : list Row) : Response Row * list Row :=
  match delete id rows with
  | Some rows' => (mkResponse 204 Empty, rows')
  | None => (mkResponse 500 (Err failure), rows)
  end.

End Table.

(** A row of the task table, with the columns [POST /api/tasks] writes;
    the team of a task is the team of the user [userId] points to. *)
Record TaskRow := mkTaskRow {
  id : string;
  title : option string;
  description : string;
  status : string;
  priority : string;
  assignee : string;
  userId : string
}.

Record TaskData := mkTaskData {
  d_title : option string;
  d_description : option string;
  d_status : option string;
  d_priority : option string;
  d_assignee : option string;
  d_userId : option string
}.

Definition write_task (data : TaskData) (row : TaskRow) : TaskRow :=
  {| id := id row;
     title := match d_title data with Some s => Some s | None => title row end;
     description := default (description row) (d_description data);
     status := default (status row) (d_status data);
     priority := default (priority row) (d_priority data);
     assignee := default (assignee row) (d_assignee data);
     userId := default (userId row) (d_userId data) |}.

(** [PUT /api/tasks/:id] and [DELETE /api/tasks/:id] *)
Definition put_task := put id write_task "タスクの更新に失敗しました".
Definition delete_task := del id "タスクの削除に失敗しました".

(** The team a task row belongs to: [task.user.teamName]. *)
Definition team_of (users : list User.t) (row : TaskRow) : option string :=
  match list_find (λ user, User.id user = userId row) users with
  | Some (_, user) => User.teamName user
  | None => None
  end.

End Prisma.

(** ** Vocabulary of the specification *)

(** The identity carries a team: [req.user.teamName] is truthy. *)
Definition has_team (user : Identity.t) : Prop :=
  truthy (Identity.teamName user) = true.

(** The records a list route answers with. *)
Definition records {R} (r : Response R) : list R :=
  match payload r with
  | Many rs => rs
  | _ => []
  end.

(** The filter the three list routes share, over the [teamName] field. *)
Definition own {R} (team : R → string) (user : Identity.t) (rs : list R)
    : list R :=
  filter (λ r, Some (team r) = Identity.teamName user) rs.

Definition is_error {R} (r : Response R) : Prop :=
  ∃ error, payload r = Err error.

(** A write was turned down: an error went out and the array is as it was. *)
Definition rejected {R} (out : Response R * list R) (before : list R) : Prop :=
  is_error out.1 ∧ out.2 = before.

(** A record field [x] equals what the body sent under that key, if the
    body sent anything. *)
Definition as_sent {A} (v : option A) (x : A) : Prop :=
  ∀ s, v = Some s → x = s.

(** The same, for the values JavaScript takes as truthy. *)
Definition as_sent_nonempty (v : option string) (x : string) : Prop :=
  ∀ s, v = Some s → s ≠ "" → x = s.

Definition as_sent_nonzero (v : option Z) (x : Z) : Prop :=
  ∀ n, v = Some n → n ≠ 0 → x = n.


Definition date_as_sent_nonempty (v : option string) (x : DateString) : Prop :=
  ∀ s, v = Some s → s ≠ "" → x = Raw s.


Definition project_fields_equal (F : ProjectBody.t) (p : Project.t) : Prop :=
  Project.name p = ProjectBody.name F
  ∧ as_sent (ProjectBody.description F) (Project.description p)
  ∧ as_sent (ProjectBody.client F) (Project.client p)
  ∧ as_sent (ProjectBody.status F) (Project.status p)
  ∧ as_sent (ProjectBody.priority F) (Project.priority p)
  ∧ as_sent (ProjectBody.progress F) (Project.progress p).

Definition lead_fields_equal (F : LeadBody.t) (l : Lead.t) : Prop :=
  Lead.company l = LeadBody.company F
  ∧ Lead.contact l = LeadBody.contact F
  ∧ as_sent (LeadBody.contactEmail F) (Lead.contactEmail l)
  ∧ as_sent (LeadBody.status F) (Lead.status l)
  ∧ as_sent (LeadBody.value F) (Lead.value l)
  ∧ as_sent (LeadBody.probability F) (Lead.probability l).

(** A record field [x] is the string the body sent when that is not
    empty, and the default [d] when the body sent none or the empty one. *)
Definition sent_or_default (v : option string) (d x : string) : Prop :=
  (∀ s, v = Some s → s ≠ "" → x = s)
  ∧ (v = None ∨ v = Some "" → x = d).

(** The same for a date string, whose default is a stamp. *)
Definition date_sent_or_default (v : option string) (d x : DateString)
    : Prop :=
  (∀ s, v = Some s → s ≠ "" → x = Raw s)
  ∧ (v = None ∨ v = Some "" → x = d).

(** A number field [x] is the number the body sent, and zero when it
    sent none. *)
Definition number_sent_or_zero (v : option Z) (x : Z) : Prop :=
  (∀ n, v = Some n → x = n) ∧ (v = None → x = 0).

(** [probability]: the number sent when that is not zero, 50 when the
    body sent none; of a zero that was sent nothing is said. *)
Definition probability_sent_or_50 (v : option Z) (x : Z) : Prop :=
  (∀ n, v = Some n → n ≠ 0 → x = n) ∧ (v = None → x = 50).





(** Creation time descending: no record is followed by one created later. *)
Definition created_no_earlier (a b : Task.t) : Prop :=
  match Task.createdAt a, Task.createdAt b with
  | ISO x, ISO y => (y ≤ x)%Z
  | _, _ => True
  end.

Definition newest_first (tasks : list Task.t) : Prop :=
  StronglySorted created_no_earlier tasks.

(** The user arrays the server can hold after [users], however the
    requests overlap: the array changes when a registration that got
    past its validation comes back from the [await], in whatever state
    the array is by then. *)
Inductive later `{Strings} `{Crypto} (users : list User.t)
    : list User.t → Prop :=
| later_refl : later users users
| later_resume users' now salt body :
    later users users' →
    truthy_value (RegisterBody.email body) = true →
    truthy_value (RegisterBody.password body) = true →
    later users (Memory.register_end now salt body users').2.

(** The user arrays a run of registrations leads to when they are
    handled in turn, each from its lookup to its push with no other
    request in between. *)
Inductive in_turn `{Strings} `{Crypto} (users : list User.t)
    : list User.t → Prop :=
| in_turn_refl : in_turn users users
| in_turn_register users' now salt body :
    in_turn users users' →
    in_turn users (Memory.register now salt body users').2.

(** The fields id, email, name, role and teamName of a user, as a JSON
    object. *)
Definition public_fields (user : User.t) (team : string) : JObject :=
  [("id", User.id user); ("email", User.email user);
   ("name", User.name user); ("role", User.role user); ("teamName", team)].

(** The libraries with another hash function and another verdict on
    hashes, the signature being the same. *)
Definition other_hash `{Crypto} (hash' : string → string → string)
    (compare' : string → string → bool) : Crypto :=
  {| bcrypt_hash := hash'; bcrypt_compare := compare'; jwt_sign := jwt_sign |}.

(** A user record with the hash blanked. *)
Definition without_hash (user : User.t) : User.t :=
  {| User.id := User.id user;
     User.email := User.email user;
     User.password := "";
     User.name := User.name user;
     User.teamName := User.teamName user;
     User.role := User.role user;
     User.createdAt := User.createdAt user |}.

(** ** Sample requests *)

Module Sample.

(** Stand-ins for the libraries, to run the auth routes on: the
    lowering of the ASCII letters, which is what [toLowerCase] does on
    the ASCII strings of the samples, and a toy hash and signature. *)
Definition ascii : Strings := {| toLowerCase := lower_letters |}.

Definition crypto : Crypto :=
  {| bcrypt_hash salt password := String.append salt password;
     bcrypt_compare password hash :=
       bool_decide (String.append "salt" password = hash);
     jwt_sign claims iat := String.concat "." (claims.*2) |}.

Definition alice : Identity.t :=
  Identity.mk "1" "a@x.com" "alice" "user" (Some "Sales").

Definition bob : Identity.t :=
  Identity.mk "2" "b@x.com" "bob" "user" (Some "Ops").

(** A verified token whose payload has no [teamName]. *)
Definition nobody : Identity.t :=
  Identity.mk "3" "c@x.com" "carol" "user" None.

(** A clock that stands still at [t] while a handler runs. *)
Definition at_ (t : Z) : Clock := λ _, t.

Definition follow_up : TaskBody.t :=
  TaskBody.mk None (Some "Follow up") None None None None None None None None.


Definition to_ops : TaskBody.t :=
  TaskBody.mk None None None None None None None (Some "Ops") None None.

Definition register_as (email : string) (team : string) : RegisterBody.t :=
  RegisterBody.mk (Some (Str email)) (Some (Str "pw123456")) None (Some team).

(** A login with the number 1 where the password goes. *)
Definition login_with_1 (email : string) : LoginBody.t :=
  LoginBody.mk (Some (Str email)) (Some (Other true)).

(** Two users of the Prisma-backed server and a task of the first. *)
Definition sales_user : User.t :=
  User.mk "u1" "a@x.com" "hash" "alice" (Some "Sales") "user" (ISO 1).

Definition ops_user : User.t :=
  User.mk "u2" "b@x.com" "hash" "bob" (Some "Ops") "user" (ISO 2).

Definition ops_member : Identity.t :=
  Identity.mk "u2" "b@x.com" "bob" "user" (Some "Ops").

Definition sales_row : Prisma.TaskRow :=
  Prisma.mkTaskRow "t1" (Some "Follow up") "" "pending" "medium" "alice" "u1".

Definition retitle : Prisma.TaskData :=
  Prisma.mkTaskData (Some "Taken over") None None None None None.

End Sample.

(** ** The token middleware and the routes behind it *)

Module Middleware.

(** [s.split(sep)] for a one-character separator: the pieces between the
    separators, empty pieces included; never the empty array. *)
Fixpoint split_on (sep : ascii) (s : string) : list string :=
  match s with
  | EmptyString => [EmptyString]
  | String c s' =>
      if decide (c = sep) then EmptyString :: split_on sep s'
      else match split_on sep s' with
           | piece :: pieces => String c piece :: pieces
           | [] => [String c EmptyString]
           end
  end.

(** [authHeader && authHeader.split(' ')[1]], when it is truthy. *)
Definition bearer_token (authHeader : option string) : option string :=
  match authHeader with
  | Some (String c h) =>
      match split_on " " (String c h) !! 1%nat with
      | Some (String c' t) => Some (String c' t)
      | _ => None
      end
  | _ => None
  end.

(** [jwt.verify(token, secret, callback)]: the decoded payload, or
    [None] when the callback gets an error. Of the payload only the
    string-valued keys are kept. *)
Class Verifier := {
  jwt_verify : string → option JObject
}.

(** [o[k]] *)
Definition get (k : string) (o : JObject) : option string :=
  match list_find (λ kv : string * string, kv.1 = k) o with
  | Some (_, (_, v)) => Some v
  | None => None
  end.

(** [req.user] as the handlers read it. A key the payload lacks reads as
    the empty string in the fields typed [string]; the handlers only
    test those for truthiness. *)
Definition identity (payload : JObject) : Identity.t :=
  {| Identity.id := default "" (get "id" payload);
     Identity.email := default "" (get "email" payload);
     Identity.name := default "" (get "name" payload);
     Identity.role := default "" (get "role" payload);
     Identity.teamName := get "teamName" payload |}.

(** [authenticateToken], with [next] the handler behind it and [state]
    the array that handler works on. *)
Definition authenticateToken `{Verifier} {S R} (authHeader : option string)
    (next : JObject → S → Response R * S) (state : S) : Response R * S :=
  match bearer_token authHeader with
  | None => (mkResponse 401 (Err "アクセストークンが必要です"), state)
  | Some token =>
      match jwt_verify token with
      | None => (mkResponse 403 (Err "無効なトークンです"), state)
      | Some user => next user state
      end
  end.

End Middleware.

(** A value of the objects [GET /api/team/members] sends. *)
Inductive JValue :=
| JString (s : string)
| JDate (d : DateString).

Module App.
Import Middleware.

Section Routes.
Context `{Verifier}.

(** The object [GET /api/team/members] maps a user to. *)
Definition member (user : User.t) : list (string * JValue) :=
  [("id", JString (User.id user)); ("email", JString (User.email user));
   ("name", JString (User.name user)); ("role", JString (User.role user))]
  ++ match User.teamName user with
     | Some team => [("teamName", JString team)]
     | None => []
     end
  ++ [("createdAt", JDate (User.createdAt user))].

(** The handler of [GET /api/team/members]. *)
Definition team_members (user : Identity.t) (users : list User.t)
    : Response (list (string * JValue)) :=
  mkResponse 200
    (Many (member <$> filter (λ u, User.teamName u = Identity.teamName user)
                        users)).

(** [GET /api/team/members] *)
Definition get_team_members (authHeader : option string)
    (users : list User.t) : Response (list (string * JValue)) :=
  (authenticateToken authHeader
     (λ user users, (team_members (identity user) users, users)) users).1.

(** [GET /api/tasks] *)
Definition get_tasks (authHeader : option string) (tasks : list Task.t)
    : Response Task.t :=
  (authenticateToken authHeader
     (λ user tasks, (Memory.get_tasks (identity user) tasks, tasks)) tasks).1.

(** [POST /api/tasks] *)
Definition post_task (authHeader : option string) (now : Clock)
    (body : TaskBody.t) (tasks : list Task.t)
    : Response Task.t * list Task.t :=
  authenticateToken authHeader
    (λ user, Memory.post_task now (identity user) body) tasks.

(** [PUT /api/tasks/:id] *)
Definition put_task (authHeader : option string) (now : Clock) (id : string)
    (body : TaskBody.t) (tasks : list Task.t)
    : Response Task.t * list Task.t :=
  authenticateToken authHeader
    (λ user, Memory.put_task now (identity user) id body) tasks.

(** [DELETE /api/tasks/:id] *)
Definition delete_task (authHeader : option string) (id : string)
    (tasks : list Task.t) : Response Task.t * list Task.t :=
  authenticateToken authHeader
    (λ user, Memory.delete_task (identity user) id) tasks.

End Routes.

End App.

(** ** The API client of the front end *)

Module Client.

(** The request interceptor: [localStorage.getItem('token')] goes into
    the [Authorization] header when it is truthy. *)
Definition add_token (localStorage headers : gmap.gmap string string)
    : gmap.gmap string string :=
  match localStorage !! "token" with
  | Some (String c t) =>
      <["Authorization" := String.append "Bearer " (String c t)]> headers
  | _ => headers
  end.

(** The header value the server finds under [req.headers['authorization']]. *)
Definition authorization (headers : gmap.gmap string string)
    : option string :=
  headers !! "Authorization".

(** What the response interceptor can reach of the browser. *)
Record Browser := mkBrowser {
  localStorage : gmap.gmap string string;
  location : string
}.

(** The error branch of the response interceptor; [status] is
    [error.response?.status]. The error is passed on either way. *)
Definition on_error (status : option Z) (browser : Browser) : Browser :=
  if decide (status = Some 401) then
    {| localStorage := delete "user" (delete "token" (localStorage browser));
       location := "/" |}
  else browser.

End Client.

(** ** Registration on the Prisma-backed server *)

Module PrismaAuth.

(** The team table, by the one column the handler names, and the user
    table. *)
Record Db := mkDb {
  teams : list string;
  users : list User.t
}.

Section Register.
Context `{Strings} `{Crypto}.

(** [POST /api/auth/register]. The id and the creation stamp of the new
    row are the database's choice and come in as [id] and [createdAt];
    [now 0] is the instant of signing. An email or a password that is no
    string makes [email.toLowerCase()] or [bcrypt.hash] throw, which
    lands in the [catch]. *)
Definition register (id : string) (createdAt : DateString) (now : Clock)
    (salt : string) (body : RegisterBody.t) (db : Db) : AuthResponse * Db :=
  if truthy_value (RegisterBody.email body)
     && truthy_value (RegisterBody.password body)
  then
    match RegisterBody.email body, RegisterBody.password body with
    | Some (Str email), Some password =>
        let normalizedEmail := toLowerCase email in
        match list_find (λ user, User.email user = normalizedEmail)
                (users db) with
        | Some existingUser =>
            (mkAuthResponse 400
               (AuthErr "このメールアドレスは既に登録されています"), db)
        | None =>
            match password with
            | Str password =>
                let finalTeamName :=
                  or_else (RegisterBody.teamName body) "デフォルトチーム" in
                let teams' :=
                  match list_find (λ name, name = finalTeamName)
                          (teams db) with
                  | Some team => teams db
                  | None => teams db ++ [finalTeamName]
                  end in
                let user :=
                  {| User.id := id;
                     User.email := normalizedEmail;
                     User.password := bcrypt_hash salt password;
                     User.name :=
                       or_else (RegisterBody.name body) (before_at email);
                     User.teamName := Some finalTeamName;
                     User.role := "user";
                     User.createdAt := createdAt |} in
                (mkAuthResponse 201
                   (AuthOk "登録が完了しました" (Memory.claims user)
                      (jwt_sign (Memory.claims user) (now 0%nat))),
                 mkDb teams' (users db ++ [user]))
            | Other _ =>
                (mkAuthResponse 500 (AuthErr Memory.register_failed), db)
            end
        end
    | _, _ => (mkAuthResponse 500 (AuthErr Memory.register_failed), db)
    end
  else
    (mkAuthResponse 400 (AuthErr "メールアドレスとパスワードは必須です"), db).

(** The databases a run of registrations leads to from [db]. *)
Inductive reaches (db : Db) : Db → Prop :=
| reaches_refl : reaches db db
| reaches_register db' id createdAt now salt body :
    reaches db db' →
    reaches db (register id createdAt now salt body db').2.

End Register.

(** Every user's team has its row, and no team has two. *)
Definition consistent (db : Db) : Prop :=
  NoDup (teams db)
  ∧ Forall (λ user, ∃ team, User.teamName user = Some team ∧ team ∈ teams db)
      (users db).

End PrismaAuth.

(** ** More vocabulary *)

(** [c] occurs in [s]. *)
Fixpoint has_char (c : ascii) (s : string) : bool :=
  match s with
  | EmptyString => false
  | String c' s' => if decide (c' = c) then true else has_char c s'
  end.

(** A key of [{ ...first, ...second }]: the value of [second] when it
    has the key. *)
Definition spread_key {A} (first second : option A) : option A :=
  match second with
  | Some x => Some x
  | None => first
  end.

(** [{ ...first, ...second }] on two task bodies. *)
Definition spread (first second : TaskBody.t) : TaskBody.t :=
  {| TaskBody.id := spread_key (TaskBody.id first) (TaskBody.id second);
     TaskBody.title := spread_key (TaskBody.title first) (TaskBody.title second);
     TaskBody.description :=
       spread_key (TaskBody.description first) (TaskBody.description second);
     TaskBody.status :=
       spread_key (TaskBody.status first) (TaskBody.status second);
     TaskBody.priority :=
       spread_key (TaskBody.priority first) (TaskBody.priority second);
     TaskBody.assignee :=
       spread_key (TaskBody.assignee first) (TaskBody.assignee second);
     TaskBody.dueDate :=
       spread_key (TaskBody.dueDate first) (TaskBody.dueDate second);
     TaskBody.teamName :=
       spread_key (TaskBody.teamName first) (TaskBody.teamName second);
     TaskBody.createdBy :=
       spread_key (TaskBody.createdBy first) (TaskBody.createdBy second);
     TaskBody.createdAt :=
       spread_key (TaskBody.createdAt first) (TaskBody.createdAt second) |}.

(** What holds of a user the server stored: the email is the lower
    casing of a non-empty string that was sent, the role is ["user"] and
    there is a non-empty team name. *)
Definition stored_user_ok `{Strings} (user : User.t) : Prop :=
  (∃ sent, sent ≠ "" ∧ User.email user = toLowerCase sent)
  ∧ User.role user = "user"
  ∧ truthy (User.teamName user) = true.

(** The user a registration stored: the last of the array. *)
Definition registered (out : AuthResponse * list User.t) : option User.t :=
  last out.2.

(** ** More sample requests *)

Module Demo.
Import Sample.

(** The token [Sample.crypto] signs for the first user of the samples,
    and a verifier that knows that token only. *)
Definition alice_claims : JObject :=
  [("id", "1"); ("email", "a@x.com"); ("name", "a"); ("role", "user");
   ("teamName", "Sales")].

Definition alice_token : string := "1.a@x.com.a.user.Sales".

Definition verifier : Middleware.Verifier :=
  {| Middleware.jwt_verify token :=
       if decide (token = alice_token) then Some alice_claims else None |}.

Definition sales_task : Task.t :=
  Task.mk "7" (Some "Call") "" "pending" "medium" "alice" (ISO 7) "Sales"
    "alice" (ISO 7) (ISO 7).

Definition ops_task : Task.t :=
  Task.mk "8" (Some "Ship") "" "pending" "medium" "bob" (ISO 8) "Ops" "bob"
    (ISO 8) (ISO 8).

Definition done_body : TaskBody.t :=
  TaskBody.mk None None None (Some "completed") None None None None None None.

End Demo.

(** * Properties *)

(** ** JavaScript primitives *)

Lemma truthy_Some s : truthy (Some s) = true ↔ s ≠ "".
Proof. destruct s; simpl; split; congruence. Qed.

Lemma truthy_None : truthy None = false.
Proof. reflexivity. Qed.

Lemma or_else_truthy v d : truthy v = true → Some (or_else v d) = v.
Proof. by destruct v as [[|c s]|]. Qed.

Lemma or_else_falsy v d : truthy v = false → or_else v d = d.
Proof. by destruct v as [[|c s]|]. Qed.

Lemma or_else_as_sent_nonempty v d : as_sent_nonempty v (or_else v d).
Proof. intros s -> Hs. by destruct s. Qed.

Lemma or_else_empty_as_sent v : as_sent v (or_else v "").
Proof. intros s ->. by destruct s. Qed.

Lemma num_or_as_sent_nonzero v d : as_sent_nonzero v (num_or v d).
Proof. intros n -> Hn. simpl. by case_decide. Qed.

Lemma num_or_zero_as_sent v : as_sent v (num_or v 0).
Proof. intros n ->. simpl. by case_decide. Qed.

Lemma date_or_as_sent_nonempty v ms : date_as_sent_nonempty v (date_or v ms).
Proof. intros s -> Hs. by destruct s. Qed.

Create HintDb js discriminated.
#[local] Hint Resolve or_else_as_sent_nonempty or_else_empty_as_sent
  num_or_as_sent_nonzero num_or_zero_as_sent date_or_as_sent_nonempty : js.

Lemma lower_letters_length s :
  String.length (lower_letters s) = String.length s.
Proof. induction s as [|c s IH]; simpl; congruence. Qed.

Lemma truthy_value_Str s : truthy_value (Some (Str s)) = true ↔ s ≠ "".
Proof. destruct s; simpl; split; congruence. Qed.

Lemma sent_or_default_or_else v d : sent_or_default v d (or_else v d).
Proof.
  split; [intros s -> Hs; by destruct s|intros [->| ->]; reflexivity].
Qed.

Lemma date_sent_or_default_date_or v ms :
  date_sent_or_default v (ISO ms) (date_or v ms).
Proof.
  split; [intros s -> Hs; by destruct s|intros [->| ->]; reflexivity].
Qed.

Lemma number_sent_or_zero_num_or v : number_sent_or_zero v (num_or v 0).
Proof. split; [intros n ->; simpl; by case_decide|by intros ->]. Qed.

Lemma probability_sent_or_50_num_or v : probability_sent_or_50 v (num_or v 50).
Proof. split; [intros n -> Hn; simpl; by case_decide|by intros ->]. Qed.


(** ** Team scoping of the list routes *)

Section Scoped.
Context {R : Type} (team : R → string).

Lemma own_spec user rs r :
  r ∈ own team user rs ↔ r ∈ rs ∧ Some (team r) = Identity.teamName user.
Proof. unfold own. rewrite list_elem_of_filter. tauto. Qed.

Lemma own_no_team user rs : Identity.teamName user = None → own team user rs = [].
Proof.
  intros Hnone. unfold own. induction rs as [|r rs IH]; [done|].
  rewrite filter_cons_False; [done|]. rewrite Hnone. discriminate.
Qed.


Lemma own_push_other user rs r :
  Some (team r) ≠ Identity.teamName user →
  own team user (rs ++ [r]) = own team user rs.
Proof.
  intros Hr. unfold own. rewrite filter_app.
  rewrite filter_singleton_False by done. apply app_nil_r.
Qed.

End Scoped.

Lemma get_tasks_own user tasks :
  records (Memory.get_tasks user tasks) = own Task.teamName user tasks.
Proof. reflexivity. Qed.

Lemma get_projects_own user projects :
  records (Memory.get_projects user projects)
  = own Project.teamName user projects.
Proof. reflexivity. Qed.

Lemma get_leads_own user leads :
  records (Memory.get_leads user leads) = own Lead.teamName user leads.
Proof. reflexivity. Qed.

(** A list route answers only with records that carry the team of the
    identity. *)
Lemma list_routes_own_team user :
  (∀ tasks t, t ∈ records (Memory.get_tasks user tasks) →
     Some (Task.teamName t) = Identity.teamName user)
  ∧ (∀ projects p, p ∈ records (Memory.get_projects user projects) →
       Some (Project.teamName p) = Identity.teamName user)
  ∧ (∀ leads l, l ∈ records (Memory.get_leads user leads) →
       Some (Lead.teamName l) = Identity.teamName user).
Proof.
  split_and!; intros rs r Hr.
  - rewrite get_tasks_own in Hr. by apply own_spec in Hr as [_ ?].
  - rewrite get_projects_own in Hr. by apply own_spec in Hr as [_ ?].
  - rewrite get_leads_own in Hr. by apply own_spec in Hr as [_ ?].
Qed.

(** A create stamps the record with the team of a creator that has one. *)
Lemma new_task_team now user body :
  has_team user →
  Some (Task.teamName (Memory.new_task now user body)) = Identity.teamName user.
Proof. intros Hteam. by apply or_else_truthy. Qed.

Lemma new_project_team now user body :
  has_team user →
  Some (Project.teamName (Memory.new_project now user body))
  = Identity.teamName user.
Proof. intros Hteam. by apply or_else_truthy. Qed.

Lemma new_lead_team now user body :
  has_team user →
  Some (Lead.teamName (Memory.new_lead now user body)) = Identity.teamName user.
Proof. intros Hteam. by apply or_else_truthy. Qed.

(** Right after a create under one team, the list of an identity of any
    other team is what it was. *)
Lemma post_task_unseen_elsewhere now creator body tasks reader :
  has_team creator →
  Identity.teamName reader ≠ Identity.teamName creator →
  records (Memory.get_tasks reader (Memory.post_task now creator body tasks).2)
  = records (Memory.get_tasks reader tasks).
Proof.
  intros Hteam Hne. rewrite !get_tasks_own. simpl.
  apply own_push_other. rewrite new_task_team by done. congruence.
Qed.

Lemma post_project_unseen_elsewhere now creator body projects reader :
  has_team creator →
  Identity.teamName reader ≠ Identity.teamName creator →
  records (Memory.get_projects reader
             (Memory.post_project now creator body projects).2)
  = records (Memory.get_projects reader projects).
Proof.
  intros Hteam Hne. rewrite !get_projects_own. simpl.
  apply own_push_other. rewrite new_project_team by done. congruence.
Qed.

Lemma post_lead_unseen_elsewhere now creator body leads reader :
  has_team creator →
  Identity.teamName reader ≠ Identity.teamName creator →
  records (Memory.get_leads reader (Memory.post_lead now creator body leads).2)
  = records (Memory.get_leads reader leads).
Proof.
  intros Hteam Hne. rewrite !get_leads_own. simpl.
  apply own_push_other. rewrite new_lead_team by done. congruence.
Qed.

(** ** Runs of the in-memory task routes *)

Import Sample.

(** C1 (reads are team-isolated; a resource created under one team never
    shows in the list of another). The list route itself only answers
    with records of the caller's team ([list_routes_own_team]), and right
    after its creation a record is unseen elsewhere
    ([post_task_unseen_elsewhere]); but the update route copies
    [teamName] from the body, so a task created by a member of Sales
    shows up in the list of a member of Ops once its creator has sent
    [{ teamName: "Ops" }]. *)
Theorem put_task_hands_task_to_other_team :
  let tasks1 := (Memory.post_task (at_ 1) alice follow_up []).2 in
  let tasks2 := (Memory.put_task (at_ 2) alice "1" to_ops tasks1).2 in
  records (Memory.get_tasks bob tasks1) = []
  ∧ ∃ t, records (Memory.get_tasks bob tasks2) = [t]
         ∧ Task.id t = "1"
         ∧ Task.title t = Some "Follow up"
         ∧ Task.createdBy t = "alice"
         ∧ Task.createdAt t = ISO 1.
Proof. vm_compute. split; [done|]. eexists. by split_and!. Qed.

(** ** Update and delete by id *)

Lemma find_task_None user id tasks :
  Memory.find_task user id tasks = None ↔
  ∀ t, t ∈ tasks → Task.id t = id →
       Some (Task.teamName t) ≠ Identity.teamName user.
Proof.
  unfold Memory.find_task. rewrite list_find_None, Forall_forall.
  split; intros Hall t Ht; specialize (Hall t Ht); tauto.
Qed.

(** In the in-memory server an id that no task of the caller's team
    carries gets one and the same 404, whether some other team has a task
    with that id or nobody has, and the array is left alone. *)
Lemma memory_task_routes_not_found now user id body tasks :
  (∀ t, t ∈ tasks → Task.id t = id →
        Some (Task.teamName t) ≠ Identity.teamName user) →
  Memory.put_task now user id body tasks
  = (mkResponse 404 (Err "タスクが見つかりません"), tasks)
  ∧ Memory.delete_task user id tasks
    = (mkResponse 404 (Err "タスクが見つかりません"), tasks).
Proof.
  intros Hnone%find_task_None.
  unfold Memory.put_task, Memory.delete_task. by rewrite Hnone.
Qed.

(** The Prisma-backed routes never look at the caller. *)
Lemma prisma_routes_ignore_identity {Row Data} (row_id : Row → string)
    (write : Data → Row → Row) failure user1 user2 id body rows :
  Prisma.put row_id write failure user1 id body rows
  = Prisma.put row_id write failure user2 id body rows
  ∧ Prisma.del row_id failure user1 id rows
    = Prisma.del row_id failure user2 id rows.
Proof. done. Qed.

(** C2 (update and delete of an id outside the caller's team fail with
    NotFound, the same as for an id nobody has). The in-memory task
    routes do that ([memory_task_routes_not_found]); the Prisma-backed
    routes address the row by id alone: a member of Ops rewrites and
    deletes a task of Sales, and an id nobody has is answered with 500. *)
Theorem prisma_task_routes_cross_team :
  Prisma.team_of [sales_user; ops_user] sales_row = Some "Sales"
  ∧ Identity.teamName ops_member = Some "Ops"
  ∧ (∃ row, Prisma.put_task ops_member "t1" retitle [sales_row]
            = (mkResponse 200 (One row), [row])
            ∧ Prisma.title row = Some "Taken over"
            ∧ Prisma.userId row = "u1")
  ∧ Prisma.delete_task ops_member "t1" [sales_row] = (mkResponse 204 Empty, [])
  ∧ Prisma.put_task ops_member "t0" retitle [sales_row]
    = (mkResponse 500 (Err "タスクの更新に失敗しました"), [sales_row])
  ∧ Prisma.delete_task ops_member "t0" [sales_row]
    = (mkResponse 500 (Err "タスクの削除に失敗しました"), [sales_row]).
Proof. vm_compute. split_and!; try done. eexists. by split_and!. Qed.

(** ** Who sets [teamName] *)

(** A create reads neither [teamName] nor [createdBy] (nor [id] or
    [createdAt]) from the body. *)
Lemma new_task_ignores_owner_keys now user body body' :
  TaskBody.title body = TaskBody.title body' →
  TaskBody.description body = TaskBody.description body' →
  TaskBody.status body = TaskBody.status body' →
  TaskBody.priority body = TaskBody.priority body' →
  TaskBody.assignee body = TaskBody.assignee body' →
  TaskBody.dueDate body = TaskBody.dueDate body' →
  Memory.new_task now user body = Memory.new_task now user body'.
Proof. unfold Memory.new_task. by intros -> -> -> -> -> ->. Qed.

Lemma merge_task_teamName now task body :
  Task.teamName (Memory.merge_task now task body)
  = default (Task.teamName task) (TaskBody.teamName body).
Proof. reflexivity. Qed.

(** C3 ([teamName] is set once at creation and no later update changes
    it to a value the client sent). A create does take it from the
    identity ([new_task_team], [new_task_ignores_owner_keys]); the update
    route spreads the body over the record, so the team of a task
    created under Sales is Ops after its creator sent
    [{ teamName: "Ops" }]. *)
Theorem put_task_overwrites_teamName :
  let tasks1 := (Memory.post_task (at_ 1) alice follow_up []).2 in
  let out := Memory.put_task (at_ 2) alice "1" to_ops tasks1 in
  Task.teamName <$> tasks1 = ["Sales"]
  ∧ status out.1 = 200
  ∧ Task.teamName <$> out.2 = ["Ops"].
Proof. by vm_compute. Qed.

(** ** Order of a list *)

(** A list keeps the order of the array, which is the order of the
    pushes. *)
Lemma get_tasks_push_order user tasks :
  records (Memory.get_tasks user tasks) `sublist_of` tasks.
Proof. rewrite get_tasks_own. apply sublist_filter. Qed.

(** C5 (a list holds exactly the records of the caller's team, newest
    first). The in-memory route answers with exactly those records
    ([get_tasks_own], [own_spec]) in the order they were pushed
    ([get_tasks_push_order]): of two tasks created at instants 1 and 2
    the older one comes first. *)
Theorem get_tasks_lists_oldest_first :
  let tasks1 := (Memory.post_task (at_ 1) alice follow_up []).2 in
  let tasks2 := (Memory.post_task (at_ 2) alice follow_up tasks1).2 in
  Task.createdAt <$> records (Memory.get_tasks alice tasks2) = [ISO 1; ISO 2]
  ∧ ¬ newest_first (records (Memory.get_tasks alice tasks2)).
Proof.
  vm_compute. split; [done|]. intros Hsorted.
  apply StronglySorted_inv in Hsorted as [_ Hhead].
  apply Forall_inv in Hhead. vm_compute in Hhead. by apply Hhead.
Qed.

(** ** An identity without a team *)

(** A create by an identity without a team is not turned down. *)
Lemma post_task_without_team_is_accepted :
  ¬ rejected (Memory.post_task (at_ 1) nobody follow_up []) [].
Proof. intros [[error Herr] _]. vm_compute in Herr. discriminate. Qed.

(** C4, as the code has it: for an identity whose [teamName] is absent,
    every create of a task, project or lead is answered with 201, adds
    exactly the new record at the end of its array and stamps it with
    the team ["Unknown"]; every list answers 200 with the empty array. *)
Theorem no_team_writes_go_to_Unknown now user tbody pbody lbody
    tasks projects leads :
  Identity.teamName user = None →
  (let t := Memory.new_task now user tbody in
   Memory.post_task now user tbody tasks
   = (mkResponse 201 (One t), tasks ++ [t])
   ∧ Task.teamName t = "Unknown")
  ∧ (let p := Memory.new_project now user pbody in
     Memory.post_project now user pbody projects
     = (mkResponse 201 (One p), projects ++ [p])
     ∧ Project.teamName p = "Unknown")
  ∧ (let l := Memory.new_lead now user lbody in
     Memory.post_lead now user lbody leads
     = (mkResponse 201 (One l), leads ++ [l])
     ∧ Lead.teamName l = "Unknown")
  ∧ Memory.get_tasks user tasks = mkResponse 200 (Many [])
  ∧ Memory.get_projects user projects = mkResponse 200 (Many [])
  ∧ Memory.get_leads user leads = mkResponse 200 (Many []).
Proof.
  intros Hnone. split_and!.
  - split; [done|]. simpl. by rewrite Hnone.
  - split; [done|]. simpl. by rewrite Hnone.
  - split; [done|]. simpl. by rewrite Hnone.
  - unfold Memory.get_tasks. do 2 f_equal. by apply (own_no_team Task.teamName).
  - unfold Memory.get_projects. do 2 f_equal.
    by apply (own_no_team Project.teamName).
  - unfold Memory.get_leads. do 2 f_equal. by apply (own_no_team Lead.teamName).
Qed.

Lemma no_team_writes_go_to_Unknown_at_nobody :
  Identity.teamName nobody = None
  ∧ Task.teamName <$> (Memory.post_task (at_ 1) nobody follow_up []).2
    = ["Unknown"]
  ∧ Memory.get_tasks nobody (Memory.post_task (at_ 1) nobody follow_up []).2
    = mkResponse 200 (Many []).
Proof.
  pose proof (no_team_writes_go_to_Unknown (at_ 1) nobody follow_up
                ProjectBody.empty LeadBody.empty
                (Memory.post_task (at_ 1) nobody follow_up []).2 [] []
                eq_refl) as (_ & _ & _ & Hlist & _).
  split; [reflexivity|]. split; [reflexivity|]. exact Hlist.
Defined.

(** ** Create, then list *)

#[local] Hint Resolve sent_or_default_or_else date_sent_or_default_date_or
  number_sent_or_zero_num_or probability_sent_or_50_num_or : js.











(** A probability sent as zero does not come back either: the lead is
    stored with the fallback of 50. *)
Lemma post_lead_zero_probability_becomes_50 :
  Lead.probability
    (Memory.new_lead (at_ 1) alice
       (LeadBody.mk (Some "ACME") (Some "Wile") None None None (Some 0%Z)
          None None))
  = 50%Z.
Proof. reflexivity. Qed.

(** ** Registration *)

Section Registration.
Context `{Strings} `{Crypto}.

(** After the [await] a registration pushes the new user and answers
    201, or lands in the [catch] and leaves the array alone. *)
Lemma register_end_cases now salt body users :
  (∃ email password,
     RegisterBody.email body = Some (Str email)
     ∧ RegisterBody.password body = Some (Str password)
     ∧ Memory.register_end now salt body users
       = (mkAuthResponse 201
            (AuthOk "登録が完了しました"
               (Memory.claims (Memory.new_user now salt body email password))
               (jwt_sign
                  (Memory.claims (Memory.new_user now salt body email password))
                  (now 2%nat))),
          users ++ [Memory.new_user now salt body email password]))
  ∨ Memory.register_end now salt body users
    = (mkAuthResponse 500 (AuthErr Memory.register_failed), users).
Proof.
  unfold Memory.register_end.
  destruct (RegisterBody.password body) as [[p|b]|]; try (by right).
  destruct (RegisterBody.email body) as [[e|b]|]; try (by right).
  left. by exists e, p.
Qed.

(** Before the [await] it answers with an error or not at all. *)
Lemma register_begin_cases body users :
  (∃ code error,
     Memory.register_begin body users
     = Some (mkAuthResponse code (AuthErr error))
     ∧ (code = 400 ∨ code = 500))
  ∨ (Memory.register_begin body users = None
     ∧ truthy_value (RegisterBody.email body) = true
     ∧ truthy_value (RegisterBody.password body) = true
     ∧ ∀ email, RegisterBody.email body = Some (Str email) →
                Memory.find_user email users = None).
Proof.
  unfold Memory.register_begin.
  destruct (RegisterBody.email body) as [email|]; [|left; eauto].
  destruct (truthy_value (Some email)) eqn:Hemail; [|left; eauto].
  destruct (truthy_value (RegisterBody.password body)); [|left; eauto].
  simpl. destruct (Memory.find_by_email email users) as [[found|]|] eqn:Hfind;
    [left; eauto|..|left; eauto].
  right. split_and!; try done. intros e [= ->]. simpl in Hfind. congruence.
Qed.

(** A registration handled with nothing in between: the 201 case. *)
Lemma register_201 now salt body users :
  auth_status (Memory.register now salt body users).1 = 201 →
  ∃ email password,
    RegisterBody.email body = Some (Str email) ∧ email ≠ ""
    ∧ RegisterBody.password body = Some (Str password) ∧ password ≠ ""
    ∧ Memory.find_user email users = None
    ∧ Memory.register now salt body users
      = (mkAuthResponse 201
           (AuthOk "登録が完了しました"
              (Memory.claims (Memory.new_user now salt body email password))
              (jwt_sign
                 (Memory.claims (Memory.new_user now salt body email password))
                 (now 2%nat))),
         users ++ [Memory.new_user now salt body email password]).
Proof.
  unfold Memory.register.
  destruct (register_begin_cases body users)
    as [(code & error & -> & [-> | ->])|(-> & Hemail & Hpw & Hfind)];
    [discriminate..|].
  destruct (register_end_cases now salt body users)
    as [(e & p & He & Hp & ->)| ->]; [|discriminate].
  intros _. exists e, p. rewrite He, Hp in *.
  split_and!; try done; [by apply truthy_value_Str..|by apply Hfind].
Qed.

Lemma register_not_201 now salt body users :
  auth_status (Memory.register now salt body users).1 ≠ 201 →
  (Memory.register now salt body users).2 = users.
Proof.
  unfold Memory.register.
  destruct (Memory.register_begin body users); [done|].
  destruct (register_end_cases now salt body users)
    as [(e & p & _ & _ & ->)| ->]; [by intros []|done].
Qed.

Lemma later_extends users users' :
  later users users' → ∃ more, users' = users ++ more.
Proof.
  induction 1 as [|users' now salt body _ [more ->] _ _].
  - exists []. by rewrite app_nil_r.
  - destruct (register_end_cases now salt body (users ++ more))
      as [(e & p & _ & _ & ->)| ->].
    + eexists (more ++ [_]). by rewrite app_assoc.
    + by exists more.
Qed.

(** A registration handled with nothing in between is one way for the
    array to get on. *)
Lemma later_register users users' now salt body :
  later users users' →
  later users (Memory.register now salt body users').2.
Proof.
  intros Hlater. unfold Memory.register.
  destruct (register_begin_cases body users')
    as [(code & error & -> & _)|(-> & Hemail & Hpw & _)]; [done|].
  by apply later_resume.
Qed.

Lemma in_turn_later users users' : in_turn users users' → later users users'.
Proof. induction 1; [constructor|by apply later_register]. Qed.

Lemma find_user_elem email users user :
  user ∈ users → User.email user = toLowerCase email →
  is_Some (Memory.find_user email users).
Proof.
  intros Hin Hemail. unfold Memory.find_user.
  destruct (list_find_elem_of (λ u, User.email u = toLowerCase email)
              users user Hin Hemail) as [[i u] ->].
  by eexists.
Qed.

End Registration.

(** C6: once a registration with email [email1] has been answered with
    201, every registration that begins after that with an email that
    lowercases to the same string is answered with 400 before it gets to
    the [await], so that it never pushes: the user array is as it was.
    This holds whatever other registrations overlap with the two: the
    first may have done its lookup at any earlier time, and the array
    may have grown by any pushes between the two. The error is the
    duplicate-email one whenever the request carries an email and a
    password (and the missing-field one otherwise). *)
Theorem register_same_email_twice_rejected `{Strings} `{Crypto}
    now1 salt1 body1 users email1 users2 now2 salt2 body2 email2 :
  auth_status (Memory.register_end now1 salt1 body1 users).1 = 201 →
  RegisterBody.email body1 = Some (Str email1) →
  later (Memory.register_end now1 salt1 body1 users).2 users2 →
  RegisterBody.email body2 = Some (Str email2) →
  toLowerCase email2 = toLowerCase email1 →
  let answer :=
    mkAuthResponse 400
      (AuthErr (if truthy_value (RegisterBody.email body2)
                   && truthy_value (RegisterBody.password body2)
                then "このメールアドレスは既に登録されています"
                else "メールアドレスとパスワードは必須です")) in
  Memory.register_begin body2 users2 = Some answer
  ∧ Memory.register now2 salt2 body2 users2 = (answer, users2).
Proof.
  intros Hok Hemail1 Hlater Hemail2 Hlower answer.
  assert (Memory.register_begin body2 users2 = Some answer) as Hbegin.
  { destruct (register_end_cases now1 salt1 body1 users)
      as [(e1 & p1 & He1 & _ & Hpush)|Hfail];
      [|rewrite Hfail in Hok; discriminate].
    rewrite Hemail1 in He1. injection He1 as <-.
    rewrite Hpush in Hlater. simpl in Hlater.
    apply later_extends in Hlater as [more ->].
    assert (is_Some (Memory.find_user email2
                       ((users ++ [Memory.new_user now1 salt1 body1 email1 p1])
                        ++ more))) as [found Hfound].
    { apply (find_user_elem _ _ (Memory.new_user now1 salt1 body1 email1 p1));
        [|simpl; by rewrite Hlower].
      apply elem_of_app. left. apply elem_of_app. right.
      by apply list_elem_of_singleton. }
    unfold Memory.register_begin, answer. rewrite Hemail2.
    destruct (truthy_value (Some (Str email2))); [|done].
    destruct (truthy_value (RegisterBody.password body2)); [|done].
    simpl. by rewrite Hfound. }
  split; [done|]. unfold Memory.register. by rewrite Hbegin.
Qed.

Lemma register_same_email_twice_rejected_at_A :
  let first :=
    @Memory.register ascii crypto (at_ 1) "salt"
      (register_as "a@x.com" "Sales") [] in
  auth_status first.1 = 201
  ∧ @Memory.register ascii crypto (at_ 2) "salt"
      (register_as "A@x.com" "Ops") first.2
    = (mkAuthResponse 400 (AuthErr "このメールアドレスは既に登録されています"),
       first.2).
Proof.
  split; [reflexivity|].
  apply (@register_same_email_twice_rejected ascii crypto (at_ 1) "salt"
           (register_as "a@x.com" "Sales") [] "a@x.com" _ (at_ 2) "salt"
           (register_as "A@x.com" "Ops") "A@x.com");
    [reflexivity|reflexivity|apply later_refl|reflexivity|reflexivity].
Defined.

(** Two registrations of one email that overlap, the second doing its
    lookup before the first comes back from the [await], are both
    answered with 201 and both stored. *)
Lemma overlapping_registrations_both_stored `{Strings} `{Crypto} salt :
  let body := register_as "a@x.com" "Sales" in
  Memory.register_begin body [] = None
  ∧ auth_status
      (Memory.register_end (at_ 2) salt body
         (Memory.register_end (at_ 1) salt body []).2).1 = 201
  ∧ length (Memory.register_end (at_ 2) salt body
              (Memory.register_end (at_ 1) salt body []).2).2 = 2%nat.
Proof. done. Qed.

(** ** Login *)

(** With a password that is a string, a login with an email that matches
    no user and a login with a registered email whose password does not
    verify get one and the same response. *)
Lemma login_failures_alike `{Strings} `{Crypto}
    now1 now2 users email1 password1 email2 password2 user :
  email1 ≠ "" → password1 ≠ "" → email2 ≠ "" → password2 ≠ "" →
  Memory.find_user email1 users = None →
  Memory.find_user email2 users = Some user →
  bcrypt_compare password2 (User.password user) = false →
  Memory.login now1 (LoginBody.mk (Some (Str email1)) (Some (Str password1)))
    users
  = Memory.login now2 (LoginBody.mk (Some (Str email2)) (Some (Str password2)))
      users
  ∧ Memory.login now1
      (LoginBody.mk (Some (Str email1)) (Some (Str password1))) users
    = mkAuthResponse 401
        (AuthErr "メールアドレスまたはパスワードが正しくありません").
Proof.
  intros He1 Hp1 He2 Hp2 Hnone Hsome Hwrong. unfold Memory.login. simpl.
  destruct email1 as [|c1 e1]; [done|]. destruct password1 as [|d1 p1]; [done|].
  destruct email2 as [|c2 e2]; [done|]. destruct password2 as [|d2 p2]; [done|].
  simpl. by rewrite Hnone, Hsome, Hwrong.
Qed.

(** A password that is a truthy JSON value but no string gets through
    the validation; the handler answers 401 when no user has the email
    and reaches [bcrypt.compare], which rejects it, when one has. *)
Lemma login_password_not_a_string `{Strings} `{Crypto} now users email :
  email ≠ "" →
  Memory.login now (LoginBody.mk (Some (Str email)) (Some (Other true))) users
  = match Memory.find_user email users with
    | Some user => mkAuthResponse 500 (AuthErr Memory.login_failed)
    | None =>
        mkAuthResponse 401
          (AuthErr "メールアドレスまたはパスワードが正しくありません")
    end.
Proof.
  intros He. unfold Memory.login. simpl. destruct email as [|c e]; [done|].
  simpl. by destruct (Memory.find_user (String c e) users).
Qed.

(** C7 (a login with an unregistered email and a login with a registered
    email and a password that does not verify fail with the identical
    error). For a password that is a string they do
    ([login_failures_alike]). A login that sends the number 1 as the
    password passes [!password]; for the registered email the handler
    reaches [bcrypt.compare], which rejects a non-string, and the
    [catch] answers 500 with the login-failed message, while for an
    unregistered email it answers 401 with the message of a wrong
    password: the two tell a registered email from an unregistered
    one. *)
Theorem login_with_number_tells_registered `{Crypto} salt now1 now2 :
  let users :=
    (@Memory.register ascii _ (at_ 1) salt (register_as "a@x.com" "Sales") []).2
  in
  User.email <$> users = ["a@x.com"]
  ∧ @Memory.login ascii _ now1 (login_with_1 "a@x.com") users
    = mkAuthResponse 500 (AuthErr "ログイン処理中にエラーが発生しました")
  ∧ @Memory.login ascii _ now2 (login_with_1 "z@x.com") users
    = mkAuthResponse 401
        (AuthErr "メールアドレスまたはパスワードが正しくありません").
Proof. by vm_compute. Qed.

(** ** User ids *)

(** Registrations that read different instants get different ids. *)
Lemma register_ids_differ_with_clock (now1 now2 : Clock) :
  now1 0%nat ≠ now2 0%nat →
  pretty (now1 0%nat) ≠ pretty (now2 0%nat).
Proof. intros Hne Heq. by apply Hne, (inj pretty). Qed.

(** C9 (the ids of registered users are pairwise distinct, also for two
    registrations at the same clock reading). The id is the clock
    reading in decimal: two registrations, of different emails, that
    both read the instant 1000 both succeed and both users get the id
    ["1000"]. *)
Theorem register_same_instant_same_id `{Crypto} salt1 salt2 :
  let first :=
    @Memory.register ascii _ (at_ 1000) salt1
      (register_as "a@x.com" "Sales") [] in
  let second :=
    @Memory.register ascii _ (at_ 1000) salt2
      (register_as "b@x.com" "Ops") first.2 in
  auth_status first.1 = 201
  ∧ auth_status second.1 = 201
  ∧ User.email <$> second.2 = ["a@x.com"; "b@x.com"]
  ∧ User.id <$> second.2 = ["1000"; "1000"]
  ∧ ¬ NoDup (User.id <$> second.2).
Proof.
  vm_compute. split_and!; try done.
  intros Hnodup. apply NoDup_cons in Hnodup as [Hnotin _].
  apply Hnotin. by apply list_elem_of_singleton.
Qed.

(** ** What the auth routes send back *)

Section Exposure.
Context `{Strings} `{Crypto}.

Lemma claims_keys user :
  is_Some (User.teamName user) →
  keys (Memory.claims user) = ["id"; "email"; "name"; "role"; "teamName"].
Proof. intros [team Hteam]. unfold Memory.claims. by rewrite Hteam. Qed.

Lemma claims_public_fields user team :
  User.teamName user = Some team →
  Memory.claims user = public_fields user team.
Proof. intros Hteam. unfold Memory.claims. by rewrite Hteam. Qed.

Lemma claims_without_hash user :
  Memory.claims (without_hash user) = Memory.claims user.
Proof. reflexivity. Qed.

(** Every user the server ever stored has a team name. *)
Lemma later_teamName users :
  later [] users → Forall (λ user, is_Some (User.teamName user)) users.
Proof.
  induction 1 as [|users now salt body _ IH _ _]; [by constructor|].
  destruct (register_end_cases now salt body users)
    as [(e & p & _ & _ & ->)| ->]; [|done].
  apply Forall_app. split; [done|]. by constructor.
Qed.

Lemma find_user_Some email users user :
  Memory.find_user email users = Some user →
  user ∈ users ∧ User.email user = toLowerCase email.
Proof.
  unfold Memory.find_user.
  destruct (list_find _ users) as [[i u]|] eqn:Hfind; [|done].
  intros [= ->]. apply list_find_Some in Hfind as (Hi & Hemail & _).
  split; [|done]. by eapply list_elem_of_lookup_2.
Qed.

(** Looking a user up reads the stored emails only. *)
Lemma find_user_without_hash email users :
  Memory.find_user email (without_hash <$> users)
  = without_hash <$> Memory.find_user email users.
Proof.
  unfold Memory.find_user. rewrite list_find_fmap.
  by destruct (list_find _ users) as [[i u]|].
Qed.

Lemma find_by_email_without_hash email (users : list User.t) :
  Memory.find_by_email email (without_hash <$> users)
  = fmap (M := option) without_hash <$> Memory.find_by_email email users.
Proof.
  destruct email as [e|b]; simpl;
    [by rewrite find_user_without_hash|by destruct users].
Qed.

(** The 201 of a registration, whenever its lookup took place: the
    object sent and signed is made of the public fields of the user it
    pushed. *)
Lemma register_end_public now salt body users :
  let out := Memory.register_end now salt body users in
  (auth_status out.1 = 201
   ∧ ∃ user team,
       last out.2 = Some user ∧ out.2 = users ++ [user]
       ∧ User.teamName user = Some team
       ∧ auth_payload out.1
         = AuthOk "登録が完了しました" (public_fields user team)
             (jwt_sign (public_fields user team) (now 2%nat)))
  ∨ (auth_status out.1 = 500 ∧ out.2 = users
     ∧ ∃ error, auth_payload out.1 = AuthErr error).
Proof.
  destruct (register_end_cases now salt body users)
    as [(e & p & _ & _ & ->)| ->]; [left|right; simpl; eauto].
  split; [done|]. eexists _, _. simpl. split_and!; try done.
  apply last_snoc.
Qed.

End Exposure.

(** C10: a registration that is answered with 201, handled in turn or
    coming back from its [await] in any state of the array, sends as
    [user] exactly the fields id, email, name, role and teamName of the
    user it has just pushed, and a token signed over that same object;
    a login is answered with 200 only for a stored user whose email is
    the lowercased email of the request and whose hash verifies the
    password, and then sends exactly those five fields of that user and
    a token signed over them; every other response is an error without
    a [user]. Neither response depends on the password or its hash: with
    another hash function, another salt and another password the
    registration response is the same, and two successful logins with
    the same email against user arrays that differ in nothing but the
    stored hashes get the same response, whatever the passwords were. *)
Theorem auth_responses_expose_public_fields `{Strings} `{Crypto}
    (hash' : string → string → string) (compare' : string → string → bool)
    users users' now salt salt' rbody rbody' lbody lbody' :
  later [] users →
  without_hash <$> users' = without_hash <$> users →
  RegisterBody.email rbody' = RegisterBody.email rbody →
  RegisterBody.name rbody' = RegisterBody.name rbody →
  RegisterBody.teamName rbody' = RegisterBody.teamName rbody →
  (RegisterBody.password rbody' = RegisterBody.password rbody
   ∨ ∃ p p', p ≠ "" ∧ p' ≠ ""
             ∧ RegisterBody.password rbody = Some (Str p)
             ∧ RegisterBody.password rbody' = Some (Str p')) →
  LoginBody.email lbody' = LoginBody.email lbody →
  let registered := Memory.register now salt rbody users in
  let resumed := Memory.register_end now salt rbody users in
  let logged_in := Memory.login now lbody users in
  let logged_in' :=
    @Memory.login _ (other_hash hash' compare') now lbody' users' in
  (auth_status registered.1 = 201
   ∧ (∃ user team,
        last registered.2 = Some user ∧ User.teamName user = Some team
        ∧ auth_payload registered.1
          = AuthOk "登録が完了しました" (public_fields user team)
              (jwt_sign (public_fields user team) (now 2%nat)))
   ∨ auth_status registered.1 ≠ 201 ∧ registered.2 = users
     ∧ ∃ error, auth_payload registered.1 = AuthErr error)
  ∧ (auth_status resumed.1 = 201
     ∧ (∃ user team,
          last resumed.2 = Some user ∧ User.teamName user = Some team
          ∧ auth_payload resumed.1
            = AuthOk "登録が完了しました" (public_fields user team)
                (jwt_sign (public_fields user team) (now 2%nat)))
     ∨ auth_status resumed.1 ≠ 201 ∧ resumed.2 = users
       ∧ ∃ error, auth_payload resumed.1 = AuthErr error)
  ∧ (@Memory.register _ (other_hash hash' compare') now salt' rbody' users).1
    = registered.1
  ∧ (auth_status logged_in = 200
     ∧ (∃ user team email password,
          user ∈ users ∧ User.teamName user = Some team
          ∧ LoginBody.email lbody = Some (Str email)
          ∧ User.email user = toLowerCase email
          ∧ LoginBody.password lbody = Some (Str password)
          ∧ bcrypt_compare password (User.password user) = true
          ∧ auth_payload logged_in
            = AuthOk "ログインに成功しました" (public_fields user team)
                (jwt_sign (public_fields user team) (now 0%nat)))
     ∨ auth_status logged_in ≠ 200
       ∧ ∃ error, auth_payload logged_in = AuthErr error)
  ∧ (auth_status logged_in ≠ 200 ∨ auth_status logged_in' ≠ 200
     ∨ logged_in' = logged_in).
Proof.
  intros Hlater Hsame Hemail Hname Hteam Hpw Hlogin. cbv zeta.
  assert (auth_status (Memory.register_end now salt rbody users).1 = 201
          ∧ (∃ user team,
               last (Memory.register_end now salt rbody users).2 = Some user
               ∧ User.teamName user = Some team
               ∧ auth_payload (Memory.register_end now salt rbody users).1
                 = AuthOk "登録が完了しました" (public_fields user team)
                     (jwt_sign (public_fields user team) (now 2%nat)))
          ∨ auth_status (Memory.register_end now salt rbody users).1 ≠ 201
            ∧ (Memory.register_end now salt rbody users).2 = users
            ∧ ∃ error,
                auth_payload (Memory.register_end now salt rbody users).1
                = AuthErr error) as Hresumed.
  { destruct (register_end_public now salt rbody users)
      as [(Hst & user & team & Hlast & _ & Hsome & Hpay)|(Hst & Hun & Herr)].
    - left. split; [done|]. by exists user, team.
    - right. split_and!; [by rewrite Hst|done..]. }
  split_and!.
  - unfold Memory.register.
    destruct (register_begin_cases rbody users)
      as [(code & error & -> & Hcode)|(-> & _)]; [|done].
    right. simpl. split_and!; [by destruct Hcode as [-> | ->]|done|eauto].
  - done.
  - clear Hresumed Hlater.
    destruct rbody as [e pw n t], rbody' as [e' pw' n' t'].
    simpl in Hemail, Hname, Hteam, Hpw. subst e' n' t'.
    unfold Memory.register, Memory.register_begin, Memory.register_end,
      Memory.new_user. simpl.
    destruct Hpw as [->|(p & p' & Hp & Hp' & -> & ->)].
    + destruct e as [[[|c e]|[|]]|], pw as [[[|d p]|[|]]|]; simpl; try done;
        try (by destruct (Memory.find_user (String c e) users));
        by destruct users.
    + destruct p as [|d p]; [done|]. destruct p' as [|d' p']; [done|].
      destruct e as [[[|c e]|[|]]|]; simpl; try done;
        try (by destruct (Memory.find_user (String c e) users));
        by destruct users.
  - unfold Memory.login.
    destruct (LoginBody.email lbody) as [email|] eqn:He; [|right; eauto].
    destruct (truthy_value (Some email)); [|right; eauto].
    destruct (truthy_value (LoginBody.password lbody)); [|right; eauto].
    simpl.
    destruct (Memory.find_by_email email users) as [[user|]|] eqn:Hfind;
      [|right; eauto..].
    destruct (LoginBody.password lbody) as [[password|b]|] eqn:Hp;
      [|right; eauto..].
    destruct (bcrypt_compare password (User.password user)) eqn:Hverify;
      [|right; eauto].
    destruct email as [e|b]; [|simpl in Hfind; by destruct users].
    simpl in Hfind. injection Hfind as Hfind.
    apply find_user_Some in Hfind as [Hin Huser].
    pose proof (later_teamName users Hlater) as Hall.
    rewrite Forall_forall in Hall. destruct (Hall user Hin) as [team Hsome].
    left. split; [reflexivity|]. exists user, team, e, password.
    rewrite (claims_public_fields user team Hsome).
    split_and!; try reflexivity; done.
  - unfold Memory.login. rewrite Hlogin.
    destruct (LoginBody.email lbody) as [email|]; [|by left].
    destruct (truthy_value (Some email)); [|by left].
    destruct (truthy_value (LoginBody.password lbody)); [|by left].
    destruct (truthy_value (LoginBody.password lbody')); [|by right; left].
    simpl.
    pose proof (find_by_email_without_hash email users') as Hfind'.
    rewrite Hsame, find_by_email_without_hash in Hfind'.
    destruct (Memory.find_by_email email users) as [[user|]|],
             (Memory.find_by_email email users') as [[user'|]|];
      try discriminate Hfind'; try (by left).
    apply (inj Some), (inj Some) in Hfind' as Huser.
    assert (Memory.claims user' = Memory.claims user) as Hclaims.
    { change (Memory.claims (without_hash user')
              = Memory.claims (without_hash user)).
      by rewrite Huser. }
    destruct (LoginBody.password lbody) as [[p|b]|]; try (by left).
    destruct (bcrypt_compare p (User.password user)); [|by left].
    destruct (LoginBody.password lbody') as [[p'|b']|]; try (by right; left).
    simpl. destruct (compare' p' (User.password user')); [|by right; left].
    right; right. by rewrite Hclaims.
Qed.

Lemma auth_responses_expose_public_fields_at_alice :
  let users :=
    (@Memory.register ascii crypto (at_ 1) "salt"
       (register_as "a@x.com" "Sales") []).2 in
  let lbody := LoginBody.mk (Some (Str "A@x.com")) (Some (Str "pw123456")) in
  auth_payload
    (@Memory.register ascii crypto (at_ 2) "salt"
       (register_as "b@x.com" "Ops") users).1
  = AuthOk "登録が完了しました"
      [("id", "2"); ("email", "b@x.com"); ("name", "b"); ("role", "user");
       ("teamName", "Ops")]
      "2.b@x.com.b.user.Ops"
  ∧ auth_payload (@Memory.login ascii crypto (at_ 2) lbody users)
    = AuthOk "ログインに成功しました"
        [("id", "1"); ("email", "a@x.com"); ("name", "a"); ("role", "user");
         ("teamName", "Sales")]
        "1.a@x.com.a.user.Sales".
Proof.
  intros users lbody.
  pose proof (@auth_responses_expose_public_fields ascii crypto
                (λ _ _, "other hash") (λ _ _, true) users
                [User.mk "1" "a@x.com" "other hash" "a" (Some "Sales") "user"
                   (ISO 1)]
                (at_ 2) "salt" "pepper" (register_as "b@x.com" "Ops")
                (register_as "b@x.com" "Ops") lbody
                (LoginBody.mk (Some (Str "A@x.com")) (Some (Str "anything"))))
    as Hthm.
  destruct Hthm as (Hreg & _ & _ & Hlogin & _);
    [apply (later_register [] []), later_refl|reflexivity..
    |by left|reflexivity|].
  destruct Hreg as [[_ (user & team & Hlast & Hteam & Hreg)]|[Hreg _]];
    [|exfalso; apply Hreg; reflexivity].
  destruct Hlogin
    as [[_ (u & t & e & p & _ & Ht & _ & _ & _ & _ & Hlogin)]|[Hlogin _]];
    [|exfalso; apply Hlogin; reflexivity].
  split; reflexivity.
Defined.

(** * Further properties of the code *)

Import Demo.

(** ** Writes by id and the other teams *)

Section Outside.
Context {A : Type} (P : A → Prop) `{∀ x, Decision (P x)}.

Lemma filter_insert_outside (l : list A) i x y :
  l !! i = Some x → ¬ P x → ¬ P y → filter P (<[i:=y]> l) = filter P l.
Proof.
  intros Hi Hx Hy.
  rewrite insert_take_drop by by eapply lookup_lt_Some.
  rewrite <-(take_drop_middle l i x Hi) at 3.
  rewrite !filter_app. f_equal. by rewrite !filter_cons_False.
Qed.

Lemma filter_delete_outside (l : list A) i x :
  l !! i = Some x → ¬ P x → filter P (delete i l) = filter P l.
Proof.
  intros Hi Hx. rewrite delete_take_drop.
  rewrite <-(take_drop_middle l i x Hi) at 3.
  rewrite !filter_app. f_equal. by rewrite filter_cons_False.
Qed.

End Outside.

Lemma find_task_Some user id tasks i t :
  Memory.find_task user id tasks = Some (i, t) →
  tasks !! i = Some t ∧ Task.id t = id
  ∧ Some (Task.teamName t) = Identity.teamName user.
Proof.
  unfold Memory.find_task. intros (Hi & [Hid Hteam] & _)%list_find_Some. done.
Qed.

(** X1: an update through [PUT /api/tasks/:id] leaves the list of every
    identity of another team as it was, whatever the id and whether or
    not the update went through, unless the body itself names that
    other team. *)
Theorem put_task_keeps_other_lists now caller id body tasks reader :
  Identity.teamName reader ≠ Identity.teamName caller →
  TaskBody.teamName body ≠ Identity.teamName reader →
  records (Memory.get_tasks reader (Memory.put_task now caller id body tasks).2)
  = records (Memory.get_tasks reader tasks).
Proof.
  intros Hteams Hbody. rewrite !get_tasks_own. unfold Memory.put_task.
  destruct (Memory.find_task caller id tasks) as [[i t]|] eqn:Hfind; [|done].
  apply find_task_Some in Hfind as (Hi & _ & Hteam). simpl.
  apply (filter_insert_outside _ _ _ t); [done|congruence|].
  rewrite merge_task_teamName.
  destruct (TaskBody.teamName body) as [team|]; simpl; congruence.
Qed.

Lemma put_task_keeps_other_lists_at_bob :
  records (Memory.get_tasks bob
             (Memory.put_task (at_ 9) alice "7" done_body
                [sales_task; ops_task]).2)
  = [ops_task].
Proof.
  rewrite (put_task_keeps_other_lists (at_ 9) alice "7" done_body
             [sales_task; ops_task] bob); [reflexivity|done|done].
Defined.

(** X2: a delete through [DELETE /api/tasks/:id] leaves the list of
    every identity of another team as it was. *)
Theorem delete_task_keeps_other_lists caller id tasks reader :
  Identity.teamName reader ≠ Identity.teamName caller →
  records (Memory.get_tasks reader (Memory.delete_task caller id tasks).2)
  = records (Memory.get_tasks reader tasks).
Proof.
  intros Hteams. rewrite !get_tasks_own. unfold Memory.delete_task.
  destruct (Memory.find_task caller id tasks) as [[i t]|] eqn:Hfind; [|done].
  apply find_task_Some in Hfind as (Hi & _ & Hteam). simpl.
  apply (filter_delete_outside _ _ _ t); [done|congruence].
Qed.

Lemma delete_task_keeps_other_lists_at_bob :
  records (Memory.get_tasks bob
             (Memory.delete_task alice "7" [sales_task; ops_task]).2)
  = [ops_task].
Proof.
  rewrite (delete_task_keeps_other_lists alice "7" [sales_task; ops_task] bob);
    [reflexivity|done].
Defined.

Lemma delete_task_200 user id tasks :
  status (Memory.delete_task user id tasks).1 = 200 →
  ∃ i t, Memory.find_task user id tasks = Some (i, t)
         ∧ (Memory.delete_task user id tasks).2 = delete i tasks.
Proof.
  unfold Memory.delete_task.
  destruct (Memory.find_task user id tasks) as [[i t]|]; [|discriminate].
  intros _. by exists i, t.
Qed.

(** X3: a delete that is answered with 200 took exactly one task out of
    the array, one that carried the id and the team of the caller; all
    other tasks are still there. *)
Theorem delete_task_removes_one user id tasks :
  status (Memory.delete_task user id tasks).1 = 200 →
  ∃ t, Task.id t = id
       ∧ Some (Task.teamName t) = Identity.teamName user
       ∧ tasks ≡ₚ t :: (Memory.delete_task user id tasks).2.
Proof.
  intros (i & t & Hfind & ->)%delete_task_200.
  apply find_task_Some in Hfind as (Hi & Hid & Hteam).
  exists t. split_and!; [done..|]. by apply delete_Permutation.
Qed.

Lemma delete_task_removes_one_at_alice :
  ∃ t, Task.id t = "7"
       ∧ Some (Task.teamName t) = Identity.teamName alice
       ∧ [sales_task; ops_task]
         ≡ₚ t :: (Memory.delete_task alice "7" [sales_task; ops_task]).2.
Proof.
  apply (delete_task_removes_one alice "7" [sales_task; ops_task]).
  reflexivity.
Defined.

(** ** Create, update and delete in sequence *)




(** X5: when the ids of the caller's team are pairwise distinct, an id
    that was deleted is gone for the caller: a second delete and an
    update under it are both answered with 404 and change nothing. *)
Theorem delete_task_then_not_found now user id body tasks :
  NoDup (Task.id <$> own Task.teamName user tasks) →
  status (Memory.delete_task user id tasks).1 = 200 →
  let tasks' := (Memory.delete_task user id tasks).2 in
  Memory.delete_task user id tasks'
  = (mkResponse 404 (Err "タスクが見つかりません"), tasks')
  ∧ Memory.put_task now user id body tasks'
    = (mkResponse 404 (Err "タスクが見つかりません"), tasks').
Proof.
  intros Hnodup Hok tasks'.
  destruct (delete_task_200 user id tasks Hok) as (i & t & Hfind & Hdel).
  apply find_task_Some in Hfind as (Hi & Hid & Hteam).
  assert (tasks ≡ₚ t :: tasks') as Hperm.
  { unfold tasks'. rewrite Hdel. by apply delete_Permutation. }
  apply and_comm, memory_task_routes_not_found. intros t' Hin Hid' Hteam'.
  assert (own Task.teamName user tasks
          ≡ₚ t :: own Task.teamName user tasks') as Hown.
  { unfold own. rewrite Hperm. by rewrite filter_cons_True. }
  rewrite Hown in Hnodup. rewrite fmap_cons in Hnodup.
  apply NoDup_cons in Hnodup as [Hnotin _]. apply Hnotin.
  rewrite Hid, <-Hid'. apply list_elem_of_fmap_2.
  apply own_spec. by split.
Qed.

Lemma delete_task_then_not_found_at_alice :
  Memory.delete_task alice "7"
    (Memory.delete_task alice "7" [sales_task; ops_task]).2
  = (mkResponse 404 (Err "タスクが見つかりません"), [ops_task]).
Proof.
  refine (proj1 (delete_task_then_not_found (at_ 9) alice "7" done_body
                   [sales_task; ops_task] _ _)); [|reflexivity].
  vm_compute. apply NoDup_singleton.
Defined.

Lemma default_spread_key {A} (x : A) first second :
  default (default x first) second = default x (spread_key first second).
Proof. by destruct first, second. Qed.

Lemma from_option_spread_key {A B} (f : A → B) x first second :
  from_option f (from_option f x first) second
  = from_option f x (spread_key first second).
Proof. by destruct first, second. Qed.

Lemma merge_task_twice now1 now2 task body1 body2 :
  Memory.merge_task now2 (Memory.merge_task now1 task body1) body2
  = Memory.merge_task now2 task (spread body1 body2).
Proof.
  unfold Memory.merge_task, spread. simpl.
  rewrite !default_spread_key, !from_option_spread_key.
  f_equal. by destruct (TaskBody.title body1), (TaskBody.title body2).
Qed.

(** An update that carries neither [id] nor [teamName] leaves the task
    where a next request under the same id finds it. *)
Lemma find_task_after_put now user id body tasks i t :
  TaskBody.id body = None → TaskBody.teamName body = None →
  Memory.find_task user id tasks = Some (i, t) →
  Memory.find_task user id (<[i := Memory.merge_task now t body]> tasks)
  = Some (i, Memory.merge_task now t body).
Proof.
  intros Hid Hteam Hfind. unfold Memory.find_task in *.
  apply list_find_Some in Hfind as (Hi & [Hidt Hteamt] & Hfirst).
  apply list_find_Some. split_and!.
  - apply list_lookup_insert_eq. by eapply lookup_lt_Some.
  - simpl. by rewrite Hid.
  - simpl. by rewrite Hteam.
  - intros j y Hj Hlt. rewrite list_lookup_insert_ne in Hj by lia.
    by eapply Hfirst.
Qed.

(** X6: two updates of a task in a row, the first with a body that
    carries neither [id] nor [teamName], amount to the one update with
    the two bodies spread into one (the second winning), stamped at the
    time of the second: same response, same array. *)
Theorem put_task_twice now1 now2 user id body1 body2 tasks :
  TaskBody.id body1 = None → TaskBody.teamName body1 = None →
  Memory.put_task now2 user id body2
    (Memory.put_task now1 user id body1 tasks).2
  = Memory.put_task now2 user id (spread body1 body2) tasks.
Proof.
  intros Hid Hteam. unfold Memory.put_task at 2 3.
  destruct (Memory.find_task user id tasks) as [[i t]|] eqn:Hfind; simpl.
  - unfold Memory.put_task.
    rewrite (find_task_after_put now1 user id body1 tasks i t) by done.
    by rewrite merge_task_twice, list_insert_insert_eq.
  - unfold Memory.put_task. by rewrite Hfind.
Qed.

Lemma put_task_twice_at_alice :
  Memory.put_task (at_ 10) alice "7" follow_up
    (Memory.put_task (at_ 9) alice "7" done_body [sales_task; ops_task]).2
  = Memory.put_task (at_ 10) alice "7" (spread done_body follow_up)
      [sales_task; ops_task].
Proof.
  apply (put_task_twice (at_ 9) (at_ 10) alice "7" done_body follow_up);
    reflexivity.
Defined.

(** ** The user array over a run of registrations *)

Section Users.
Context `{Strings} `{Crypto}.

Lemma find_user_None email users :
  Memory.find_user email users = None ↔
  toLowerCase email ∉ User.email <$> users.
Proof.
  unfold Memory.find_user. rewrite fmap_None, list_find_None, Forall_forall.
  rewrite list_elem_of_fmap. split.
  - intros Hall (u & Hemail & Hin). by apply (Hall u).
  - intros Hnone u Hin Hemail. apply Hnone. by exists u.
Qed.

(** X7: in every user array the server reaches from the empty one by
    registrations handled in turn, the emails are pairwise distinct, and
    every user has as email the [toLowerCase] of a non-empty string that
    was sent, the role ["user"] and a non-empty team name. *)
Theorem reachable_users_wellformed users :
  in_turn [] users →
  NoDup (User.email <$> users) ∧ Forall stored_user_ok users.
Proof.
  induction 1 as [|users now salt body _ [IHnodup IHall]].
  { split; constructor. }
  destruct (decide (auth_status (Memory.register now salt body users).1 = 201))
    as [Hok|Hbad]; [|by rewrite register_not_201].
  destruct (register_201 now salt body users Hok)
    as (email & password & _ & Hne & _ & _ & Hfind & ->). simpl.
  split.
  - rewrite fmap_app. apply NoDup_app. split_and!; [done| |apply NoDup_singleton].
    intros e Hin ->%list_elem_of_singleton.
    by apply find_user_None in Hfind.
  - apply Forall_app. split; [done|]. apply Forall_singleton.
    unfold stored_user_ok. simpl. split_and!.
    + by exists email.
    + done.
    + by destruct (RegisterBody.teamName body) as [[|c s]|].
Qed.

(** X8: no registration alters or removes a stored user: whatever is
    at an index of the array stays there in every later array. *)
Theorem stored_users_stay users users' i user :
  later users users' → users !! i = Some user → users' !! i = Some user.
Proof.
  intros [more ->]%later_extends Hi. by apply lookup_app_l_Some.
Qed.

(** X9: a registered user can log in. Take a registration that got to
    its [await] in some state of the array and came back from it in a
    later one, in which still no user had its email, so that no other
    registration of the same email slipped in between, and that was
    answered with 201. Then in every state after that, a login with the
    password of the registration and any non-empty email that lowercases
    to the same string is answered with 200, as long as the hash
    verifies, and with the same [user] object as the registration. *)
Theorem register_then_login now salt body users0 users1 email password
    users2 now' email' :
  Memory.register_begin body users0 = None →
  later users0 users1 →
  RegisterBody.email body = Some (Str email) →
  RegisterBody.password body = Some (Str password) →
  Memory.find_user email users1 = None →
  later (Memory.register_end now salt body users1).2 users2 →
  bcrypt_compare password (bcrypt_hash salt password) = true →
  email' ≠ "" →
  toLowerCase email' = toLowerCase email →
  ∃ user message token,
    Memory.register_end now salt body users1
    = (mkAuthResponse 201 (AuthOk message user token),
       users1 ++ [Memory.new_user now salt body email password])
    ∧ Memory.login now'
        (LoginBody.mk (Some (Str email')) (Some (Str password))) users2
      = mkAuthResponse 200
          (AuthOk "ログインに成功しました" user (jwt_sign user (now' 0%nat))).
Proof.
  intros Hbegin _ Hemail Hpw Hfind Hlater Hverify Hne' Hlower.
  destruct (register_begin_cases body users0)
    as [(code & error & Hsome & _)|(_ & _ & Hpwt & _)]; [congruence|].
  rewrite Hpw in Hpwt. apply truthy_value_Str in Hpwt.
  unfold Memory.register_end in *. rewrite Hemail, Hpw in *.
  simpl in Hlater. apply later_extends in Hlater as [more ->].
  eexists _, _, _. split; [reflexivity|].
  set (user := Memory.new_user now salt body email password).
  assert (Memory.find_user email' ((users1 ++ [user]) ++ more) = Some user)
    as Hfound.
  { unfold Memory.find_user in *. rewrite Hlower.
    apply fmap_None in Hfind.
    rewrite <-app_assoc, list_find_app_r by done. simpl.
    rewrite decide_True by done. done. }
  unfold Memory.login. simpl.
  destruct email' as [|c e']; [done|]. destruct password as [|d p']; [done|].
  simpl. rewrite Hfound. simpl. by rewrite Hverify.
Qed.

End Users.

Lemma reachable_users_wellformed_at_alice :
  NoDup (User.email <$>
           (@Memory.register ascii crypto (at_ 1) "salt"
              (register_as "a@x.com" "Sales") []).2).
Proof.
  apply (@reachable_users_wellformed ascii crypto).
  apply (@in_turn_register ascii crypto [] []), in_turn_refl.
Defined.

Lemma stored_users_stay_at_alice :
  (@Memory.register ascii crypto (at_ 2) "salt" (register_as "b@x.com" "Ops")
     [sales_user]).2 !! 0%nat
  = Some sales_user.
Proof.
  apply (@stored_users_stay ascii crypto [sales_user]);
    [apply later_register, later_refl|reflexivity].
Defined.

Lemma register_then_login_at_alice :
  ∃ user message token,
    @Memory.register_end ascii crypto (at_ 1) "salt"
      (register_as "a@x.com" "Sales") []
    = (mkAuthResponse 201 (AuthOk message user token),
       [@Memory.new_user ascii crypto (at_ 1) "salt"
          (register_as "a@x.com" "Sales") "a@x.com" "pw123456"])
    ∧ @Memory.login ascii crypto (at_ 5)
        (LoginBody.mk (Some (Str "A@X.com")) (Some (Str "pw123456")))
        (@Memory.register_end ascii crypto (at_ 1) "salt"
           (register_as "a@x.com" "Sales") []).2
      = mkAuthResponse 200
          (AuthOk "ログインに成功しました" user
             (@jwt_sign crypto user 5)).
Proof.
  apply (@register_then_login ascii crypto (at_ 1) "salt"
           (register_as "a@x.com" "Sales") [] [] "a@x.com" "pw123456" _
           (at_ 5) "A@X.com");
    [reflexivity|apply later_refl|reflexivity|reflexivity|reflexivity
    |apply later_refl|reflexivity|done|reflexivity].
Defined.

(** ** Team members *)

Lemma member_keys user :
  is_Some (User.teamName user) →
  (App.member user).*1
  = ["id"; "email"; "name"; "role"; "teamName"; "createdAt"].
Proof. intros [team Hteam]. unfold App.member. by rewrite Hteam. Qed.

(** X10: in every reachable state, each object [GET /api/team/members]
    answers with has exactly the keys id, email, name, role, teamName
    and createdAt (so no password), and its teamName is the team of the
    caller; a caller without a team gets no object at all. *)
Theorem team_members_public `{Strings} `{Crypto} users caller m :
  later [] users →
  m ∈ records (App.team_members caller users) →
  m.*1 = ["id"; "email"; "name"; "role"; "teamName"; "createdAt"]
  ∧ ∃ team, Identity.teamName caller = Some team
            ∧ ("teamName", JString team) ∈ m.
Proof.
  intros Hlater Hm. unfold App.team_members, records in Hm. simpl in Hm.
  apply list_elem_of_fmap in Hm as (u & -> & Hu).
  apply list_elem_of_filter in Hu as [Hteam Hin].
  pose proof (later_teamName users Hlater) as Hall.
  rewrite Forall_forall in Hall. destruct (Hall u Hin) as [team Hsome].
  split; [apply member_keys; by exists team|].
  exists team. split; [congruence|].
  unfold App.member. rewrite Hsome.
  do 4 apply list_elem_of_further. apply list_elem_of_here.
Qed.

Lemma team_members_public_at_alice :
  let users :=
    (@Memory.register ascii crypto (at_ 1) "salt"
       (register_as "a@x.com" "Sales") []).2 in
  ∃ m, m ∈ records (App.team_members alice users)
       ∧ m.*1 = ["id"; "email"; "name"; "role"; "teamName"; "createdAt"].
Proof.
  intros users. eexists. split; [apply list_elem_of_here|].
  refine (proj1 (@team_members_public ascii crypto users alice _ _ _)).
  - apply (later_register [] []), later_refl.
  - apply list_elem_of_here.
Defined.

(** ** From the token to the handler *)

Import Middleware.

Lemma split_on_no_sep sep s : has_char sep s = false → split_on sep s = [s].
Proof.
  induction s as [|c s IH]; [done|]. simpl.
  destruct (decide (c = sep)); [done|]. intros Hs. by rewrite IH.
Qed.

Lemma split_on_first sep s rest :
  has_char sep s = false →
  split_on sep (String.append s (String sep rest)) = s :: split_on sep rest.
Proof.
  induction s as [|c s IH]; simpl.
  - intros _. by rewrite decide_True.
  - destruct (decide (c = sep)); [done|]. intros Hs. by rewrite IH.
Qed.

Lemma bearer_token_second_word scheme token :
  has_char " " scheme = false → has_char " " token = false → token ≠ "" →
  bearer_token (Some (String.append scheme (String " " token))) = Some token.
Proof.
  intros Hscheme Htoken Hne. unfold bearer_token.
  destruct (String.append scheme (String " " token)) as [|c h] eqn:Hheader.
  { destruct scheme; discriminate. }
  rewrite <-Hheader, split_on_first, split_on_no_sep by done. simpl.
  by destruct token.
Qed.

(** X11: the middleware takes what stands between the first and the
    second space of the header as the token and does not look at the
    scheme: whatever space-free word comes first, a non-empty space-free
    token after one space is the token that gets verified. *)
Theorem bearer_token_any_scheme scheme token rest :
  has_char " " scheme = false → has_char " " token = false → token ≠ "" →
  bearer_token (Some (String.append scheme (String " " token))) = Some token
  ∧ bearer_token
      (Some (String.append scheme
               (String " " (String.append token (String " " rest)))))
    = Some token.
Proof.
  intros Hscheme Htoken Hne. split; [by apply bearer_token_second_word|].
  unfold bearer_token.
  destruct (String.append scheme _) as [|c h] eqn:Hheader.
  { destruct scheme; discriminate. }
  rewrite <-Hheader, !split_on_first by done. simpl. by destruct token.
Qed.

Lemma bearer_token_any_scheme_at_alice :
  bearer_token (Some "Token 1.a@x.com.a.user.Sales and more")
  = Some alice_token.
Proof.
  by apply (proj2 (bearer_token_any_scheme "Token" alice_token "and more"
                     eq_refl eq_refl ltac:(done))).
Defined.

Section Protected.
Context `{Verifier} {S R : Type}.

(** X12: a header without any space in it (the bare token, say, or the
    scheme alone) is answered with 401 by every protected route; the
    handler does not run and the array is left as it is. *)
Theorem spaceless_header_is_401 header (next : JObject → S → Response R * S)
    state :
  has_char " " header = false →
  authenticateToken (Some header) next state
  = (mkResponse 401 (Err "アクセストークンが必要です"), state).
Proof.
  intros Hheader. unfold authenticateToken, bearer_token.
  destruct header as [|c h]; [done|]. by rewrite split_on_no_sep.
Qed.

End Protected.

Lemma spaceless_header_is_401_at_alice :
  @App.post_task verifier (Some alice_token) (at_ 1) follow_up []
  = (mkResponse 401 (Err "アクセストークンが必要です"), []).
Proof. by apply (@spaceless_header_is_401 verifier). Defined.

(** ** The client in front of the middleware *)

Lemma add_token_header storage headers token :
  storage !! "token" = Some token → token ≠ "" →
  Client.authorization (Client.add_token storage headers)
  = Some (String.append "Bearer" (String " " token)).
Proof.
  intros Hstored Hne. unfold Client.authorization, Client.add_token.
  rewrite Hstored. destruct token as [|c t]; [done|].
  by rewrite fin_maps.lookup_insert_eq.
Qed.

Section Wire.
Context `{Verifier} {S R : Type}.

(** X13: the header the client builds from a stored token gets that
    very token through the middleware: when the token verifies, the
    handler runs on its payload, for any non-empty token without a
    space. *)
Theorem stored_token_reaches_handler storage headers token payload
    (next : JObject → S → Response R * S) state :
  storage !! "token" = Some token → token ≠ "" →
  has_char " " token = false →
  jwt_verify token = Some payload →
  authenticateToken (Client.authorization (Client.add_token storage headers))
    next state
  = next payload state.
Proof.
  intros Hstored Hne Hspace Hverify. unfold authenticateToken.
  rewrite (add_token_header storage headers token) by done.
  rewrite bearer_token_second_word by done. by rewrite Hverify.
Qed.

(** X14: a stored token that does not verify is answered with 403, and
    the client, which only reacts to 401, keeps it: storage and location
    are as before, so the next request carries the same token again. *)
Theorem rejected_token_stays_in_browser browser headers token
    (next : JObject → S → Response R * S) state :
  Client.localStorage browser !! "token" = Some token → token ≠ "" →
  has_char " " token = false →
  jwt_verify token = None →
  let out :=
    authenticateToken
      (Client.authorization
         (Client.add_token (Client.localStorage browser) headers))
      next state in
  out = (mkResponse 403 (Err "無効なトークンです"), state)
  ∧ Client.on_error (Some (status out.1)) browser = browser.
Proof.
  intros Hstored Hne Hspace Hverify. cbv zeta.
  assert (authenticateToken
            (Client.authorization
               (Client.add_token (Client.localStorage browser) headers))
            next state
          = (mkResponse 403 (Err "無効なトークンです"), state)) as ->.
  { unfold authenticateToken.
    rewrite (add_token_header _ headers token) by done.
    rewrite bearer_token_second_word by done. by rewrite Hverify. }
  split; [done|]. unfold Client.on_error. by rewrite decide_False.
Qed.

(** X15: after a 401 the client has dropped [token] and [user] from the
    storage and sits at ["/"], every other key is kept, and its next
    request, built from headers without an Authorization of their own,
    is answered with 401 again by every protected route. *)
Theorem unauthorized_logs_out browser headers key
    (next : JObject → S → Response R * S) state :
  headers !! "Authorization" = None →
  key ≠ "token" → key ≠ "user" →
  let browser' := Client.on_error (Some 401) browser in
  Client.localStorage browser' !! "token" = None
  ∧ Client.localStorage browser' !! "user" = None
  ∧ Client.localStorage browser' !! key = Client.localStorage browser !! key
  ∧ Client.location browser' = "/"
  ∧ authenticateToken
      (Client.authorization
         (Client.add_token (Client.localStorage browser') headers))
      next state
    = (mkResponse 401 (Err "アクセストークンが必要です"), state).
Proof.
  intros Hheaders Htoken Huser. cbv zeta. unfold Client.on_error.
  rewrite decide_True by done. simpl.
  assert (base.delete "user" (base.delete "token" (Client.localStorage browser))
          !! "token" = None) as Hgone.
  { rewrite fin_maps.lookup_delete_ne by done.
    apply fin_maps.lookup_delete_eq. }
  split_and!.
  - done.
  - apply fin_maps.lookup_delete_eq.
  - by rewrite !fin_maps.lookup_delete_ne.
  - done.
  - unfold Client.add_token. rewrite Hgone.
    unfold authenticateToken, Client.authorization. by rewrite Hheaders.
Qed.

End Wire.

Lemma stored_token_reaches_handler_at_alice :
  @App.get_tasks verifier
    (Client.authorization (Client.add_token {["token" := alice_token]} ∅))
    [sales_task; ops_task]
  = mkResponse 200 (Many [sales_task]).
Proof.
  unfold App.get_tasks.
  rewrite (@stored_token_reaches_handler verifier _ _ {["token" := alice_token]}
             ∅ alice_token alice_claims); try reflexivity; done.
Defined.

Lemma rejected_token_stays_in_browser_at_stale :
  let browser := Client.mkBrowser {["token" := "stale.token"]} "/tasks" in
  Client.on_error
    (Some (status
             (@App.delete_task verifier
                (Client.authorization
                   (Client.add_token (Client.localStorage browser) ∅))
                "7" [sales_task]).1))
    browser
  = browser.
Proof.
  intros browser.
  refine (proj2 (@rejected_token_stays_in_browser verifier _ _ browser ∅
                   "stale.token" _ [sales_task] _ _ _ _));
    [reflexivity|done|reflexivity|reflexivity].
Defined.

Lemma unauthorized_logs_out_at_alice :
  let browser :=
    Client.mkBrowser
      (<["theme" := "dark"]> (<["user" := "alice"]> {["token" := alice_token]}))
      "/tasks" in
  Client.localStorage (Client.on_error (Some 401) browser) !! "theme"
  = Some "dark"
  ∧ Client.location (Client.on_error (Some 401) browser) = "/".
Proof.
  intros browser.
  destruct (@unauthorized_logs_out verifier _ _ browser ∅ "theme"
              (λ user tasks, (Memory.get_tasks (identity user) tasks, tasks))
              [sales_task])
    as (_ & _ & Hkept & Hloc & _); [reflexivity|done|done|].
  split; [|exact Hloc]. rewrite Hkept. reflexivity.
Defined.

(** ** From a registration to the first requests *)

Lemma identity_claims user extra :
  is_Some (User.teamName user) →
  identity (Memory.claims user ++ extra)
  = {| Identity.id := User.id user;
       Identity.email := User.email user;
       Identity.name := User.name user;
       Identity.role := User.role user;
       Identity.teamName := User.teamName user |}.
Proof. intros [team Hteam]. unfold Memory.claims. by rewrite Hteam. Qed.

Lemma or_else_nonempty v d :
  d ≠ "" → or_else (Some (or_else v d)) "Unknown" = or_else v d.
Proof. intros Hd. destruct v as [[|c s]|]; simpl; by destruct d. Qed.

Section FirstRequests.
Context `{Strings} `{Crypto} `{Verifier}.

Lemma register_AuthOk now salt body users message user token :
  auth_payload (Memory.register now salt body users).1
  = AuthOk message user token →
  auth_status (Memory.register now salt body users).1 = 201.
Proof.
  unfold Memory.register.
  destruct (register_begin_cases body users)
    as [(code & error & -> & _)|(-> & _)]; [discriminate|].
  by destruct (register_end_cases now salt body users)
    as [(e & p & _ & _ & ->)| ->].
Qed.

(** X16: a task created with the token a registration answered with
    carries the team of that registration, the one the request named or
    the default team, whatever the body of the create says; this needs
    of [jwt.verify] only that it gives back the signed claims (possibly
    with more keys after them) and of the token that it is non-empty
    and has no space. *)
Theorem registered_token_stamps_team now salt body users message user token
    extra now' tbody tasks :
  auth_payload (Memory.register now salt body users).1
  = AuthOk message user token →
  jwt_verify token = Some (user ++ extra) →
  token ≠ "" → has_char " " token = false →
  ∃ t, App.post_task (Some (String.append "Bearer " token)) now' tbody tasks
       = (mkResponse 201 (One t), tasks ++ [t])
       ∧ Task.teamName t
         = or_else (RegisterBody.teamName body) "デフォルトチーム".
Proof.
  intros Hpayload Hverify Hne Hspace.
  pose proof (register_AuthOk _ _ _ _ _ _ _ Hpayload) as Hok.
  destruct (register_201 now salt body users Hok)
    as (e & p & _ & _ & _ & _ & _ & Hreg).
  rewrite Hreg in Hpayload. simpl in Hpayload.
  injection Hpayload as _ <- _.
  unfold App.post_task, authenticateToken.
  change (String.append "Bearer " token)
    with (String.append "Bearer" (String " " token)).
  rewrite bearer_token_second_word, Hverify by done.
  rewrite identity_claims by by eexists.
  eexists. split; [reflexivity|]. simpl. by apply or_else_nonempty.
Qed.


End FirstRequests.

Lemma registered_token_stamps_team_at_alice :
  ∃ t, @App.post_task verifier (Some (String.append "Bearer " alice_token))
         (at_ 3) to_ops []
       = (mkResponse 201 (One t), [t])
       ∧ Task.teamName t = "Sales".
Proof.
  apply (@registered_token_stamps_team ascii crypto verifier (at_ 1) "salt"
           (register_as "a@x.com" "Sales") [] "登録が完了しました" alice_claims
           alice_token [] (at_ 3) to_ops []);
    [reflexivity|reflexivity|done|reflexivity].
Defined.


(** ** The Prisma-backed tables *)

Section PrismaRows.
Context {Row Data : Type} (row_id : Row → string) (write : Data → Row → Row).

Lemma prisma_del_204 failure user id rows :
  status (Prisma.del row_id failure user id rows).1 = 204 →
  ∃ i row, rows !! i = Some row ∧ row_id row = id
           ∧ (Prisma.del row_id failure user id rows).2 = delete i rows.
Proof.
  unfold Prisma.del, Prisma.delete.
  destruct (list_find _ rows) as [[i row]|] eqn:Hfind; [|discriminate].
  apply list_find_Some in Hfind as (Hi & Hid & _). intros _.
  by exists i, row.
Qed.

(** X18: with ids that are pairwise distinct, as a primary key is, an
    id that [DELETE /api/<model>s/:id] deleted is gone: a second delete
    and an update under it both land in the [catch], are answered with
    500 and change nothing. *)
Theorem prisma_deleted_id_is_gone failure failure' user id body rows :
  NoDup (row_id <$> rows) →
  status (Prisma.del row_id failure user id rows).1 = 204 →
  let rows' := (Prisma.del row_id failure user id rows).2 in
  Prisma.del row_id failure user id rows'
  = (mkResponse 500 (Err failure), rows')
  ∧ Prisma.put row_id write failure' user id body rows'
    = (mkResponse 500 (Err failure'), rows').
Proof.
  intros Hnodup Hok rows'.
  destruct (prisma_del_204 failure user id rows Hok)
    as (i & row & Hi & Hid & Hdel).
  assert (list_find (λ r, row_id r = id) rows' = None) as Hnone.
  { apply list_find_None, Forall_forall. intros r Hin Hr.
    unfold rows' in Hin. rewrite Hdel in Hin.
    rewrite (delete_Permutation rows i row Hi), fmap_cons in Hnodup.
    apply NoDup_cons in Hnodup as [Hnotin _]. apply Hnotin.
    rewrite Hid, <-Hr. by apply list_elem_of_fmap_2. }
  unfold Prisma.del, Prisma.put, Prisma.delete, Prisma.update.
  by rewrite Hnone.
Qed.

End PrismaRows.

Lemma prisma_deleted_id_is_gone_at_t1 :
  Prisma.delete_task ops_member "t1"
    (Prisma.delete_task ops_member "t1" [sales_row]).2
  = (mkResponse 500 (Err "タスクの削除に失敗しました"), []).
Proof.
  refine (proj1 (prisma_deleted_id_is_gone Prisma.id Prisma.write_task
                   "タスクの削除に失敗しました" "タスクの更新に失敗しました"
                   ops_member "t1" retitle [sales_row] _ _));
    [apply NoDup_singleton|reflexivity].
Defined.

Section PrismaTeams.
Context `{Strings} `{Crypto}.

Lemma prisma_register_consistent id createdAt now salt body db :
  PrismaAuth.consistent db →
  PrismaAuth.consistent (PrismaAuth.register id createdAt now salt body db).2.
Proof.
  intros [Hnodup Hall]. unfold PrismaAuth.register.
  destruct (truthy_value (RegisterBody.email body)
            && truthy_value (RegisterBody.password body)); [|done].
  destruct (RegisterBody.email body) as [[e|b]|]; try done.
  destruct (RegisterBody.password body) as [pw|]; try done.
  destruct (list_find _ (PrismaAuth.users db)); [done|].
  destruct pw as [p|b]; [|done].
  set (team := or_else (RegisterBody.teamName body) "デフォルトチーム").
  destruct (list_find (λ name, name = team) (PrismaAuth.teams db))
    as [[i found]|] eqn:Hteam; split; simpl.
  - done.
  - apply Forall_app. split; [done|]. apply Forall_singleton. simpl.
    exists team. split; [done|].
    apply list_find_Some in Hteam as (Hi & -> & _).
    by eapply list_elem_of_lookup_2.
  - apply NoDup_app. split_and!; [done| |apply NoDup_singleton].
    intros name Hin ->%list_elem_of_singleton.
    rewrite list_find_None, Forall_forall in Hteam. by apply (Hteam team).
  - apply Forall_app. split.
    + eapply Forall_impl; [exact Hall|]. intros u (t & Ht & Hin).
      exists t. split; [done|]. apply elem_of_app. by left.
    + apply Forall_singleton. simpl. exists team. split; [done|].
      apply elem_of_app. right. by apply list_elem_of_singleton.
Qed.

(** X19: on the Prisma-backed server, with registrations handled one
    after the other from empty tables, the team table never holds a
    name twice and every user's team name has its row there: a team row
    is made by the first registration that names the team and by no
    later one. *)
Theorem prisma_teams_consistent db :
  PrismaAuth.reaches (PrismaAuth.mkDb [] []) db → PrismaAuth.consistent db.
Proof.
  induction 1 as [|db id createdAt now salt body _ IH].
  - split; constructor.
  - by apply prisma_register_consistent.
Qed.

End PrismaTeams.

Lemma prisma_teams_consistent_at_two :
  let db1 :=
    (@PrismaAuth.register ascii crypto "u1" (ISO 1) (at_ 1) "salt"
       (register_as "a@x.com" "Sales") (PrismaAuth.mkDb [] [])).2 in
  let db2 :=
    (@PrismaAuth.register ascii crypto "u2" (ISO 2) (at_ 2) "salt"
       (register_as "b@x.com" "Sales") db1).2 in
  PrismaAuth.teams db2 = ["Sales"] ∧ PrismaAuth.consistent db2.
Proof.
  intros db1 db2. split; [reflexivity|].
  apply (@prisma_teams_consistent ascii crypto).
  apply PrismaAuth.reaches_register, PrismaAuth.reaches_register,
    PrismaAuth.reaches_refl.
Defined.

(** ** The list routes and the creates, for the three kinds *)


(** X21: a create by an identity with a team leaves the list of every
    identity of another team as it was, for tasks, projects and leads. *)
Theorem create_keeps_other_lists now creator tbody pbody lbody
    tasks projects leads reader :
  has_team creator →
  Identity.teamName reader ≠ Identity.teamName creator →
  records (Memory.get_tasks reader
             (Memory.post_task now creator tbody tasks).2)
  = records (Memory.get_tasks reader tasks)
  ∧ records (Memory.get_projects reader
               (Memory.post_project now creator pbody projects).2)
    = records (Memory.get_projects reader projects)
  ∧ records (Memory.get_leads reader
               (Memory.post_lead now creator lbody leads).2)
    = records (Memory.get_leads reader leads).
Proof.
  intros Hteam Hne.
  auto using post_task_unseen_elsewhere, post_project_unseen_elsewhere,
    post_lead_unseen_elsewhere.
Qed.

Lemma create_keeps_other_lists_at_bob :
  records (Memory.get_tasks bob
             (Memory.post_task (at_ 9) alice follow_up [ops_task]).2)
  = [ops_task].
Proof.
  rewrite (proj1 (create_keeps_other_lists (at_ 9) alice follow_up
                    ProjectBody.empty LeadBody.empty [ops_task] [] [] bob
                    eq_refl ltac:(done))).
  reflexivity.
Defined.

(** ** The default name *)

Lemma before_at_local local domain :
  has_char "@" local = false →
  before_at (String.append local (String "@" domain)) = local.
Proof.
  induction local as [|c s IH]; simpl.
  - done.
  - destruct (decide (c = "@"%char)); [done|]. intros Hs. by rewrite IH.
Qed.

(** X22: a registration that is answered with 201 and sent no name (or
    an empty one) stores the part of the email before its first ['@'] as
    the name, in the letter case it was sent in, while the email itself
    is stored as [toLowerCase] gives it. *)
Theorem register_default_name `{Strings} `{Crypto} now salt body users
    local domain :
  auth_status (Memory.register now salt body users).1 = 201 →
  RegisterBody.email body
  = Some (Str (String.append local (String "@" domain))) →
  has_char "@" local = false →
  truthy (RegisterBody.name body) = false →
  ∃ user, registered (Memory.register now salt body users) = Some user
          ∧ User.name user = local
          ∧ User.email user
            = toLowerCase (String.append local (String "@" domain)).
Proof.
  intros Hok Hemail Hlocal Hname.
  destruct (register_201 now salt body users Hok)
    as (e & p & He & _ & _ & _ & _ & Hreg).
  rewrite Hemail in He. injection He as <-.
  rewrite Hreg. unfold registered. simpl.
  eexists. split; [apply last_snoc|]. simpl. split; [|done].
  rewrite or_else_falsy by done. by apply before_at_local.
Qed.

Lemma register_default_name_at_Alice :
  ∃ user,
    registered (@Memory.register ascii crypto (at_ 1) "salt"
                  (register_as "Alice.B@x.com" "Sales") []) = Some user
    ∧ User.name user = "Alice.B"
    ∧ User.email user = "alice.b@x.com".
Proof.
  apply (@register_default_name ascii crypto (at_ 1) "salt"
           (register_as "Alice.B@x.com" "Sales") [] "Alice.B" "x.com");
    reflexivity.
Defined.
